(** * Supplier Insights API: the insight-generation engine

    A shallow embedding of [app/models.py], [app/llm_service.py] and the
    [/generate-insights] handler of [app/main.py], with the properties of
    the engine proved over it.

    Modelling conventions.
    - Numbers come in two models.  In the first a Python [float] is the
      exact rational it denotes ([Q]) and arithmetic is exact, so that a
      computed float may differ from the interpreter's in its last bits;
      the non-finite floats (nan, inf) are outside it.  It serves the
      properties of structure: how the lists are built and truncated,
      what the handler returns, how the normalizer shapes its fields, how
      ingestion rescales.  In the second ([Doubles]) a [float] is a
      binary64 number and the operations are those of IEEE 754, as the
      interpreter performs them; it serves the properties that hang on
      the value of a computed float: the risk level, which compares a
      quotient with a threshold, and the failure of the engine on a zero
      total.  Python [int] is [Z].
    - A Python [str] is a Rocq [string] read as its sequence of code
      points, one character each: the strs whose code points are all below
      U+0100.  The whitespace and case classes are those of Unicode on
      that range.
    - A value decoded from JSON is a [pyval]; a Python [dict] with string
      keys is a [gmap string pyval].
    - Code that can raise returns a [result]; the exception classes that
      the code can meet are the constructors of [exn].
    - [json.loads], the string case of [float()] and the HTTP exchange of
      [GroqService._call_api] are not code of this repository; they are
      parameters of the development. *)

From Stdlib Require Import QArith Qabs Qminmax ZArith String Ascii List Lqa Lia DecimalString.
From Stdlib Require Import Floats.
From stdpp Require Import gmap strings list.

Set Warnings "-register-all".
Set Warnings "-inexact-float".

(** ** Python runtime: exceptions, values, numbers, strings *)

Module Py.

Inductive exn : Type :=
| ValueError
| JSONDecodeError        (* json.JSONDecodeError, a subclass of ValueError *)
| TypeError
| AttributeError
| ZeroDivisionError
| OverflowError          (* float() of an int beyond the doubles *)
| RecursionError         (* a decoder that ran out of stack *)
| ValidationError        (* pydantic.ValidationError *)
| UpstreamError          (* the bare Exception of _call_api, transport errors *)
| HTTPException (status_code : Z).

Inductive result (A : Type) : Type :=
| Ok (a : A)
| Raise (e : exn).
Arguments Ok {A} a.
Arguments Raise {A} e.

Definition bind {A B} (m : result A) (k : A -> result B) : result B :=
  match m with Ok a => k a | Raise e => Raise e end.

Inductive pyval : Type :=
| PNone
| PBool (b : bool)
| PInt (z : Z)
| PFloat (q : Q)
| PStr (s : string)
| PList (l : list pyval)
| PDict (d : gmap string pyval).

(** Comparison of floats, as booleans. *)
Definition Qleb (x y : Q) : bool := Qle_bool x y.
Definition Qltb (x y : Q) : bool := negb (Qle_bool y x).

(** Python's [min(a, b)] and [max(a, b)]: the first argument unless the
    second is strictly smaller (larger). *)
Definition py_min (a b : Q) : Q := if Qltb b a then b else a.
Definition py_max (a b : Q) : Q := if Qltb a b then b else a.

Definition pow10 (n : nat) : positive := Nat.iter n (Pos.mul 10) 1%positive.

(** Nearest integer, ties to even. *)
Definition round_half_even (x : Q) : Z :=
  let n := Qnum x in
  let d := Zpos (Qden x) in
  let q := (n / d)%Z in
  let r := (n mod d)%Z in
  if (2 * r <? d)%Z then q
  else if (d <? 2 * r)%Z then (q + 1)%Z
  else if Z.even q then q else (q + 1)%Z.

(** [round(x, ndigits)]. *)
Definition py_round (x : Q) (ndigits : nat) : Q :=
  Qmake (round_half_even (x * inject_Z (Zpos (pow10 ndigits)))) (pow10 ndigits).

(** [str(z)] for an int. *)
Definition str_of_int (z : Z) : string := NilZero.string_of_int (Z.to_int z).

Fixpoint zfill (width : nat) (s : string) : string :=
  match width with
  | O => s
  | S w => if (String.length s <? width)%nat then zfill w (String "0" s) else s
  end.

(** [format(x, '.<prec>f')]. *)
Definition format_f (prec : nat) (x : Q) : string :=
  let k := round_half_even (Qabs x * inject_Z (Zpos (pow10 prec))) in
  let ip := (k / Zpos (pow10 prec))%Z in
  let fp := (k mod Zpos (pow10 prec))%Z in
  ((if Qltb x 0 then "-" else "") ++
   str_of_int ip ++
   (match prec with O => "" | _ => "." ++ zfill prec (str_of_int fp) end))%string.

(** Whitespace, as [str.strip], [str.isspace] and the regex class [\s] of a
    str pattern see it: U+0009 to U+000D, U+001C to U+0020, U+0085 and
    U+00A0. *)
Definition is_space (c : ascii) : bool :=
  let n := nat_of_ascii c in
  ((9 <=? n) && (n <=? 13) || (28 <=? n) && (n <=? 32) ||
   (n =? 133) || (n =? 160))%nat.

Fixpoint lstrip (s : string) : string :=
  match s with
  | EmptyString => EmptyString
  | String c s' => if is_space c then lstrip s' else s
  end.

Definition rstrip (s : string) : string := String.rev (lstrip (String.rev s)).

(** [s.strip()]. *)
Definition strip (s : string) : string := rstrip (lstrip s).

(** [s.startswith(p)] and [s.endswith(p)]. *)
Definition startswith (p s : string) : bool := String.prefix p s.
Definition endswith (p s : string) : bool :=
  String.prefix (String.rev p) (String.rev s).

Fixpoint drop_chars (n : nat) (s : string) : string :=
  match n, s with
  | O, _ => s
  | S n', String _ s' => drop_chars n' s'
  | S _, EmptyString => EmptyString
  end.

Fixpoint take_chars (n : nat) (s : string) : string :=
  match n, s with
  | S n', String c s' => String c (take_chars n' s')
  | _, _ => EmptyString
  end.

Definition drop_last_chars (n : nat) (s : string) : string :=
  String.rev (drop_chars n (String.rev s)).

(** The lowercase of a character: A to Z, and U+00C0 to U+00DE but for the
    multiplication sign U+00D7, have theirs 32 places further. *)
Definition lower_char (c : ascii) : ascii :=
  let n := nat_of_ascii c in
  if ((65 <=? n) && (n <=? 90) ||
      (192 <=? n) && (n <=? 222) && negb (n =? 215))%nat
  then ascii_of_nat (n + 32) else c.

(** [s.lower()]. *)
Fixpoint lower (s : string) : string :=
  match s with
  | EmptyString => EmptyString
  | String c s' => String (lower_char c) (lower s')
  end.

(** [d.get(key, dflt)]. *)
Definition dict_get (d : gmap string pyval) (key : string) (dflt : pyval) : pyval :=
  default dflt (d !! key).

(** [v.get(key, dflt)] on an arbitrary value: only a dict has [get]. *)
Definition py_get (v : pyval) (key : string) (dflt : pyval) : result pyval :=
  match v with
  | PDict d => Ok (dict_get d key dflt)
  | _ => Raise AttributeError
  end.

(** [v.lower()]: only a str has [lower]. *)
Definition py_lower (v : pyval) : result string :=
  match v with
  | PStr s => Ok (lower s)
  | _ => Raise AttributeError
  end.

(** [v[:n]]: lists and strings are sliced, nothing else can be. *)
Definition py_slice_to (n : nat) (v : pyval) : result pyval :=
  match v with
  | PList l => Ok (PList (take n l))
  | PStr s => Ok (PStr (take_chars n s))
  | _ => Raise TypeError
  end.

(** [l or dflt] for a list. *)
Definition list_or {A} (l dflt : list A) : list A :=
  match l with [] => dflt | _ => l end.

(** The largest finite double, [sys.float_info.max], and half the gap
    between it and the power of two above it. *)
Definition DBL_MAX : Z := (2 ^ 53 - 1) * 2 ^ 971.
Definition half_ulp_of_DBL_MAX : Z := 2 ^ 970.

Section Float.
(** [float(s)] for a str [s]; [None] when the text is not a number. *)
Variable float_of_str : string -> option Q.

(** [float(v)].  An int is rounded to the nearest double, and one that
    rounds beyond the largest finite double raises OverflowError; the
    rounding of an int that fits is left out, since the two callers bound
    the result by 1 and by 100, where ints are exact. *)
Definition py_float (v : pyval) : result Q :=
  match v with
  | PFloat q => Ok q
  | PInt z => if (Z.abs z <? DBL_MAX + half_ulp_of_DBL_MAX)%Z
              then Ok (inject_Z z) else Raise OverflowError
  | PBool b => Ok (if b then 1%Q else 0%Q)
  | PStr s => match float_of_str s with
              | Some q => Ok q
              | None => Raise ValueError
              end
  | PNone | PList _ | PDict _ => Raise TypeError
  end.
End Float.

End Py.

Import Py.

Notation "'let!' x ':=' m 'in' k" := (Py.bind m (fun x => k))
  (at level 10, x name, m at level 100, k at level 200).

(** ** app/models.py *)

Inductive RiskLevel : Type := LOW | MEDIUM | HIGH.

Module Supplier.

Record t : Type := mk {
  supplier_name : string;
  annual_spend_usd : Q;
  on_time_delivery_pct : Q;
  contract_expiry_months : Z;
  single_source_dependency : bool;
  region : string
}.

(** The [mode='before'] validator of [on_time_delivery_pct]: an int or a
    float (a bool is an int) in [0, 1] is multiplied by 100, anything else
    is returned as it is. *)
Definition convert_decimal_to_percentage (v : pyval) : pyval :=
  match v with
  | PFloat q => if Qleb 0 q && Qleb q 1 then PFloat (q * 100) else v
  | PInt z => if (0 <=? z)%Z && (z <=? 1)%Z then PInt (z * 100) else v
  | PBool b => PInt ((if b then 1 else 0) * 100)
  | _ => v
  end.

Section Ingestion.
(** The float a str is coerced to by the field's type, if any. *)
Variable float_of_str : string -> option Q.

(** Coercion of a field declared [float]. *)
Definition coerce_float (v : pyval) : result Q :=
  match py_float float_of_str v with
  | Ok q => Ok q
  | Raise _ => Raise ValidationError
  end.

(** Ingestion of the [on_time_delivery_pct] field: the before-validator,
    the coercion to float, then the bounds [ge=0, le=100]; the result is
    the stored value. *)
Definition ingest_on_time_delivery_pct (v : pyval) : result Q :=
  let! q := coerce_float (convert_decimal_to_percentage v) in
  if Qleb 0 q && Qleb q 100 then Ok q else Raise ValidationError.
End Ingestion.

(** The constraints of the fields, on the stored values. *)
Definition valid (s : t) : Prop :=
  (1 <= String.length (supplier_name s) <= 200)%nat /\
  (0 < annual_spend_usd s)%Q /\
  (0 <= on_time_delivery_pct s)%Q /\ (on_time_delivery_pct s <= 100)%Q /\
  (0 <= contract_expiry_months s)%Z /\
  (1 <= String.length (region s))%nat.

End Supplier.

Module InsightRequest.

Record t : Type := mk {
  category : string;
  suppliers : list Supplier.t
}.

(** [sum(s.annual_spend_usd for s in self.suppliers)]: the running sum
    starts at 0 and adds each spend in turn. *)
Definition total_spend (r : t) : Q :=
  fold_left (fun acc s => (acc + Supplier.annual_spend_usd s)%Q) (suppliers r) 0%Q.

Definition supplier_count (r : t) : nat := length (suppliers r).

(** A request that passed validation. *)
Definition valid (r : t) : Prop :=
  (1 <= String.length (category r) <= 100)%nat /\
  (1 <= length (suppliers r))%nat /\
  Forall Supplier.valid (suppliers r).

End InsightRequest.

Module InsightResponse.

Record t : Type := mk {
  category : string;
  overall_risk_level : RiskLevel;
  key_risks : list string;
  negotiation_levers : list string;
  recommended_actions_next_90_days : list string;
  confidence_score : Q
}.

(** Validation of a field declared [List[str]] with [min_length=1] and
    [max_length=10]: a list, of strings only, of 1 to 10 entries. *)
Fixpoint all_str (l : list pyval) : option (list string) :=
  match l with
  | [] => Some []
  | PStr s :: l' => match all_str l' with
                    | Some r => Some (s :: r)
                    | None => None
                    end
  | _ :: _ => None
  end.

Definition validate_str_list (v : pyval) : result (list string) :=
  match v with
  | PList l =>
      match all_str l with
      | Some r => if (1 <=? length r)%nat && (length r <=? 10)%nat
                  then Ok r else Raise ValidationError
      | None => Raise ValidationError
      end
  | _ => Raise ValidationError
  end.

(** The constructor call [InsightResponse(...)]: every field is validated,
    and the model is built only when all of them pass. *)
Definition init (category : string) (overall_risk_level : RiskLevel)
    (key_risks negotiation_levers recommended_actions_next_90_days : pyval)
    (confidence_score : Q) : result t :=
  let! kr := validate_str_list key_risks in
  let! nl := validate_str_list negotiation_levers in
  let! ra := validate_str_list recommended_actions_next_90_days in
  if Qleb 0 confidence_score && Qleb confidence_score 1
  then Ok (mk category overall_risk_level kr nl ra confidence_score)
  else Raise ValidationError.

(** [response.confidence_score = c]: plain attribute assignment, which the
    model does not re-validate. *)
Definition set_confidence_score (r : t) (c : Q) : t :=
  mk (category r) (overall_risk_level r) (key_risks r) (negotiation_levers r)
     (recommended_actions_next_90_days r) c.

(** The output contract: what the field declarations of the model demand. *)
Definition conforming (r : t) : Prop :=
  (1 <= length (key_risks r) <= 10)%nat /\
  (1 <= length (negotiation_levers r) <= 10)%nat /\
  (1 <= length (recommended_actions_next_90_days r) <= 10)%nat /\
  (0 <= confidence_score r)%Q /\ (confidence_score r <= 1)%Q.

End InsightResponse.

(** ** app/llm_service.py *)

Module LlmService.

Definition LF : ascii := ascii_of_nat 10.
Definition fence : string := "```".

(** [re.sub(r'^```(?:json)?\s*', '', s)]: an opening fence at the start of
    the text, an optional language tag [json] and the whitespace after it
    are removed. *)
Definition re_sub_fence_open (s : string) : string :=
  if startswith fence s then
    let r := drop_chars 3 s in
    let r := if startswith "json" r then drop_chars 4 r else r in
    lstrip r
  else s.

(** [re.sub(r'\s*```$', '', s)]: a fence that ends the text (or stands just
    before its final newline, where [$] matches too) is removed together
    with the whitespace before it. *)
Definition re_sub_fence_close (s : string) : string :=
  if endswith fence s then rstrip (drop_last_chars 3 s)
  else if endswith (fence ++ String LF "") s
       then (rstrip (drop_last_chars 4 s) ++ String LF "")%string
  else s.

Definition is_open_brace (c : ascii) : bool := Ascii.eqb c "{".
Definition is_close_brace (c : ascii) : bool := Ascii.eqb c "}".

(** The text from its first opening brace on. *)
Fixpoint from_first_open (s : string) : option string :=
  match s with
  | EmptyString => None
  | String c s' => if is_open_brace c then Some s else from_first_open s'
  end.

(** The text up to and including its last closing brace. *)
Fixpoint upto_last_close (s : string) : option string :=
  match s with
  | EmptyString => None
  | String c s' =>
      match upto_last_close s' with
      | Some r => Some (String c r)
      | None => if is_close_brace c then Some (String c EmptyString) else None
      end
  end.

(** [re.search(r'\{[\s\S]*\}', s)]: the leftmost match starts at the first
    opening brace, and the greedy body runs to the last closing brace. *)
Definition re_search_braces (s : string) : option string :=
  match from_first_open s with
  | Some r => upto_last_close r
  | None => None
  end.

(** [risk_map] of [validate_response]. *)
Definition risk_map : gmap string RiskLevel :=
  <["low" := LOW]> (<["medium" := MEDIUM]> (<["high" := HIGH]> ∅)).

(** [a / b] on floats. *)
Definition py_div (a b : Q) : result Q :=
  if Qeq_bool b 0 then Raise ZeroDivisionError else Ok (a / b)%Q.

(** [for x in l: st = body(st, x)], stopping at the first exception. *)
Fixpoint for_each {A S : Type} (body : S -> A -> result S) (l : list A) (st : S)
  : result S :=
  match l with
  | [] => Ok st
  | x :: l' => let! st' := body st x in for_each body l' st'
  end.

(** The three lists that the loop of [FallbackInsightGenerator.generate]
    appends to. *)
Record collected : Type := mk_collected {
  risks : list string;
  levers : list string;
  actions : list string
}.

Section Messages.
Import Supplier.
Local Open Scope string_scope.

Definition msg_single_source (s : Supplier.t) (pct : Q) : string :=
  "Single-source: " ++ supplier_name s ++ " ($" ++
  format_f 1 (annual_spend_usd s / 1000000) ++ "M, " ++ format_f 0 pct ++ "%)".

Definition msg_urgent (s : Supplier.t) : string :=
  "Urgent: " ++ supplier_name s ++ " expires in " ++
  str_of_int (contract_expiry_months s) ++ " months".

Definition msg_renew (s : Supplier.t) : string :=
  "Renew contract with " ++ supplier_name s.

Definition msg_renewal_talks (s : Supplier.t) : string :=
  "Start renewal talks with " ++ supplier_name s.

Definition msg_low_delivery (s : Supplier.t) : string :=
  "Low delivery: " ++ supplier_name s ++ " at " ++
  format_f 0 (on_time_delivery_pct s) ++ "%".

Definition msg_top_performer (s : Supplier.t) : string :=
  "Top performer: " ++ supplier_name s ++ " (" ++
  format_f 0 (on_time_delivery_pct s) ++ "%)".

Definition msg_volume (s : Supplier.t) (pct : Q) : string :=
  "Volume leverage: " ++ supplier_name s ++ " (" ++ format_f 0 pct ++ "% spend)".

Definition default_risks : list string := ["No critical risks identified"].
Definition default_levers : list string := ["Review contracts for opportunities"].
Definition default_actions : list string := ["Quarterly supplier review"].
End Messages.

Module FallbackInsightGenerator.
Import Supplier.

(** One iteration of the loop over the suppliers. *)
Definition loop_body (total_spend : Q) (st : collected) (s : Supplier.t)
  : result collected :=
  let! ratio := py_div (annual_spend_usd s) total_spend in
  let pct := (ratio * 100)%Q in
  let st :=
    if single_source_dependency s
    then mk_collected (risks st ++ [msg_single_source s pct]) (levers st) (actions st)
    else st in
  let st :=
    if (contract_expiry_months s <=? 3)%Z
    then mk_collected (risks st ++ [msg_urgent s]) (levers st)
                      (actions st ++ [msg_renew s])
    else if (contract_expiry_months s <=? 6)%Z
    then mk_collected (risks st) (levers st) (actions st ++ [msg_renewal_talks s])
    else st in
  let st :=
    if Qltb (on_time_delivery_pct s) 85
    then mk_collected (risks st ++ [msg_low_delivery s]) (levers st) (actions st)
    else st in
  let st :=
    if Qleb 95 (on_time_delivery_pct s)
    then mk_collected (risks st) (levers st ++ [msg_top_performer s]) (actions st)
    else st in
  let st :=
    if Qleb 30 pct
    then mk_collected (risks st) (levers st ++ [msg_volume s pct]) (actions st)
    else st in
  Ok st.

(** The two flags computed after the loop.  The division inside the first
    [any] cannot raise here: it runs only when there is a supplier, and
    then the loop has already divided by the same total. *)
Definition high_risk (total_spend : Q) (suppliers : list Supplier.t) : bool :=
  existsb (fun s => single_source_dependency s &&
                    Qltb 0.4 (annual_spend_usd s / total_spend)) suppliers
  || existsb (fun s => (contract_expiry_months s <=? 3)%Z) suppliers
  || existsb (fun s => Qltb (on_time_delivery_pct s) 80) suppliers.

Definition med_risk (suppliers : list Supplier.t) : bool :=
  existsb (fun s => (contract_expiry_months s <=? 6)%Z) suppliers
  || existsb (fun s => Qltb (on_time_delivery_pct s) 90) suppliers.

Definition generate (request : InsightRequest.t) : result InsightResponse.t :=
  let total_spend := InsightRequest.total_spend request in
  let suppliers := InsightRequest.suppliers request in
  let! st := for_each (loop_body total_spend) suppliers (mk_collected [] [] []) in
  let level :=
    if high_risk total_spend suppliers then HIGH
    else if med_risk suppliers then MEDIUM
    else LOW in
  InsightResponse.init
    (InsightRequest.category request)
    level
    (PList (PStr <$> list_or (take 5 (risks st)) default_risks))
    (PList (PStr <$> list_or (take 5 (levers st)) default_levers))
    (PList (PStr <$> list_or (take 5 (actions st)) default_actions))
    0.65.
End FallbackInsightGenerator.

(** The configuration of the client; the exchange itself is a parameter. *)
Record GroqService : Type := mk_GroqService {
  api_key : string;
  model : string;
  temperature : Q
}.

Section External.
(** [json.loads]: the decoded value, or the exception it raises: a
    JSONDecodeError for a text that is not JSON, and whatever else the
    decoder may run into (a RecursionError on deep nesting, ...). *)
Variable json_loads : string -> result pyval.
(** [float(s)] on a str. *)
Variable float_of_str : string -> option Q.
(** The two prompts built from the request and sent by [_call_api]: the
    text of the reply, or the exception of the exchange. *)
Variable call_api : GroqService -> InsightRequest.t -> result string.

Definition parse_response (text : string) : result pyval :=
  let cleaned := strip text in
  let cleaned :=
    if startswith fence cleaned
    then re_sub_fence_close (re_sub_fence_open cleaned)
    else cleaned in
  match json_loads cleaned with
  | Ok v => Ok v
  | Raise JSONDecodeError =>
      match re_search_braces cleaned with
      | Some m => json_loads m
      | None => Raise ValueError
      end
  | Raise e => Raise e
  end.

Definition validate_response (data : pyval) (request : InsightRequest.t)
  : result InsightResponse.t :=
  let! rl := py_get data "overall_risk_level" (PStr "Medium") in
  let! key := py_lower rl in
  let risk_level := default MEDIUM (risk_map !! key) in
  let! cs := py_get data "confidence_score" (PFloat 0.7) in
  let! f := py_float float_of_str cs in
  let confidence := py_max 0 (py_min 1 f) in
  let! kr0 := py_get data "key_risks" (PList [PStr "No risks identified"]) in
  let! kr := py_slice_to 10 kr0 in
  let! nl0 := py_get data "negotiation_levers" (PList [PStr "Review contracts"]) in
  let! nl := py_slice_to 10 nl0 in
  let! ra0 := py_get data "recommended_actions_next_90_days"
                (PList [PStr "Conduct review"]) in
  let! ra := py_slice_to 10 ra0 in
  InsightResponse.init (InsightRequest.category request) risk_level kr nl ra
                       (py_round confidence 2).

(** [GroqService.generate_insights]. *)
Definition generate_insights (self : GroqService) (request : InsightRequest.t)
  : result InsightResponse.t :=
  let! raw := call_api self request in
  let! data := parse_response raw in
  let! response := validate_response data request in
  Ok (InsightResponse.set_confidence_score response
        (py_min 0.95 (InsightResponse.confidence_score response + 0.2))).
End External.

End LlmService.

(** ** app/main.py *)

Module Main.
Import LlmService.

Section Handler.
Variable json_loads : string -> result pyval.
Variable float_of_str : string -> option Q.
Variable call_api : GroqService -> InsightRequest.t -> result string.

(** The handler of [POST /generate-insights]; [llm_service] is the
    module-level client, [None] when no key was configured. *)
Definition generate_insights (llm_service : option GroqService)
    (request : InsightRequest.t) : result InsightResponse.t :=
  let attempt :=
    match llm_service with
    | Some svc =>
        LlmService.generate_insights json_loads float_of_str call_api svc request
    | None => FallbackInsightGenerator.generate request
    end in
  match attempt with
  | Ok response => Ok response
  | Raise _ =>
      match FallbackInsightGenerator.generate request with
      | Ok response => Ok response
      | Raise _ => Raise (HTTPException 500)
      end
  end.
End Handler.
End Main.

(** ** The rules of the fallback engine, as the specification words them *)

Module FallbackSpec.
Import Supplier LlmService.

(** Spend share: the supplier's spend over the total, as a percentage. *)
Definition share_pct (total : Q) (s : Supplier.t) : Q :=
  (annual_spend_usd s / total * 100)%Q.

Definition triggers_high (total : Q) (s : Supplier.t) : Prop :=
  (single_source_dependency s = true /\ (40 < share_pct total s)%Q) \/
  (contract_expiry_months s <= 3)%Z \/
  (on_time_delivery_pct s < 80)%Q.

(** The entries one supplier contributes to each list, in emission order. *)
Definition risks_of (total : Q) (s : Supplier.t) : list string :=
  (if single_source_dependency s then [msg_single_source s (share_pct total s)] else [])
  ++ (if (contract_expiry_months s <=? 3)%Z then [msg_urgent s] else [])
  ++ (if Qltb (on_time_delivery_pct s) 85 then [msg_low_delivery s] else []).

Definition levers_of (total : Q) (s : Supplier.t) : list string :=
  (if Qleb 95 (on_time_delivery_pct s) then [msg_top_performer s] else [])
  ++ (if Qleb 30 (share_pct total s) then [msg_volume s (share_pct total s)] else []).

Definition actions_of (s : Supplier.t) : list string :=
  if (contract_expiry_months s <=? 3)%Z then [msg_renew s]
  else if (contract_expiry_months s <=? 6)%Z then [msg_renewal_talks s]
  else [].



(** The level the engine assigns, read off its two flags. *)
Definition level_of (total : Q) (l : list Supplier.t) : RiskLevel :=
  if FallbackInsightGenerator.high_risk total l then HIGH
  else if FallbackInsightGenerator.med_risk l then MEDIUM else LOW.
End FallbackSpec.

(** ** The parser, the normalizer and ingestion, as the specification words them *)

Module ParserSpec.
Import LlmService.
Local Open Scope string_scope.

Fixpoint has_char (c : ascii) (s : string) : bool :=
  match s with
  | EmptyString => false
  | String a s' => Ascii.eqb a c || has_char c s'
  end.

(** [m] is the part of [pre ++ m ++ post] bounded by the outermost brace
    pair: it opens with the first opening brace of the text and closes
    with its last closing brace. *)
Definition outermost_braces (pre m post : string) : Prop :=
  has_char "{" pre = false /\ has_char "}" post = false /\
  exists body, m = String "{" (body ++ String "}" "").

(** Whitespace: the code points below U+0100 that Unicode classes as
    such. *)
Definition whitespace (c : ascii) : bool :=
  existsb (Nat.eqb (nat_of_ascii c))
          [9; 10; 11; 12; 13; 28; 29; 30; 31; 32; 133; 160]%nat.

Fixpoint all_space (s : string) : bool :=
  match s with
  | EmptyString => true
  | String c s' => whitespace c && all_space s'
  end.

Definition no_space_first (s : string) : Prop :=
  match s with
  | EmptyString => True
  | String c _ => whitespace c = false
  end.

Definition no_space_last (s : string) : Prop :=
  forall r c, s = r ++ String c "" -> whitespace c = false.

Definition starts_with (p s : string) : Prop := exists r, s = p ++ r.
Definition ends_with (p s : string) : Prop := exists r, s = r ++ p.

(** [b] is [text] without the whitespace around it. *)
Definition stripped (text b : string) : Prop :=
  exists w1 w2, text = w1 ++ b ++ w2 /\
    all_space w1 = true /\ all_space w2 = true /\
    no_space_first b /\ no_space_last b.

(** [r] is [b] without its opening fence: the three backquotes, the tag
    json when it follows them, and all the whitespace after that. *)
Definition opening_removed (b r : string) : Prop :=
  exists tag w, b = "```" ++ tag ++ w ++ r /\
    (tag = "json" \/ (tag = "" /\ ~ starts_with "json" (w ++ r))) /\
    all_space w = true /\ no_space_first r.

(** [c] is [r] without its closing fence, if it ends with one: the three
    backquotes and all the whitespace before them. *)
Definition closing_removed (r c : string) : Prop :=
  (exists w, r = c ++ w ++ "```" /\ all_space w = true /\ no_space_last c) \/
  (~ ends_with "```" r /\ c = r).

(** Step (1): the text that is decoded.  A text that opens with a fence,
    once the whitespace around it is gone, loses that fence and, if it
    ends with one, the closing fence; any other text only loses the
    whitespace around it, and keeps a fence it may end with. *)
Definition cleaned (text c : string) : Prop :=
  exists b, stripped text b /\
    ((~ starts_with "```" b /\ c = b) \/
     (exists r, opening_removed b r /\ closing_removed r c)).

(** The algorithm as the specification words it: a leading and a trailing
    fence marker are each stripped if present; the text is decoded; if
    that fails the part between the outermost braces is decoded; if that
    fails too, or there is no such part, the parse fails. *)
Section Claimed.
Variable json_loads : string -> result pyval.

Definition claimed_cleaning (text : string) : string :=
  re_sub_fence_close (re_sub_fence_open (strip text)).

Definition claimed_parse (text : string) : result pyval :=
  let cleaned := claimed_cleaning text in
  match json_loads cleaned with
  | Ok v => Ok v
  | Raise _ =>
      match re_search_braces cleaned with
      | Some m => match json_loads m with
                  | Ok v => Ok v
                  | Raise _ => Raise ValueError
                  end
      | None => Raise ValueError
      end
  end.
End Claimed.
End ParserSpec.

Module NormalizerSpec.
Import LlmService.
Local Open Scope string_scope.

(** The risk-level field is absent or a string. *)
Definition risk_ok (d : gmap string pyval) : bool :=
  match d !! "overall_risk_level" with
  | None | Some (PStr _) => true
  | Some _ => false
  end.

(** A value that can be coerced to a number: a float, a bool, an int
    within the range of the doubles (one that does not round to 2^1024 or
    beyond), or a str that reads as a number. *)
Definition coercible (float_of_str : string -> option Q) (v : pyval) : bool :=
  match v with
  | PFloat _ | PBool _ => true
  | PInt z => ((- (2 ^ 1024 - 2 ^ 970) <? z) && (z <? 2 ^ 1024 - 2 ^ 970))%Z
  | PStr s => match float_of_str s with Some _ => true | None => false end
  | PNone | PList _ | PDict _ => false
  end.

(** The confidence field is absent or can be coerced to a number. *)
Definition conf_ok (float_of_str : string -> option Q) (d : gmap string pyval) : bool :=
  match d !! "confidence_score" with
  | None => true
  | Some v => coercible float_of_str v
  end.

Definition is_str (v : pyval) : bool :=
  match v with PStr _ => true | _ => false end.

(** A list field is absent, or a list that is not empty and whose first
    ten entries are strings. *)
Definition list_ok (d : gmap string pyval) (key : string) : bool :=
  match d !! key with
  | None => true
  | Some (PList l) => negb (length l =? 0)%nat && forallb is_str (take 10 l)
  | Some _ => false
  end.

Definition well_shaped (float_of_str : string -> option Q) (d : gmap string pyval)
  : bool :=
  risk_ok d && conf_ok float_of_str d && list_ok d "key_risks" &&
  list_ok d "negotiation_levers" && list_ok d "recommended_actions_next_90_days".

(** The capital of a small letter. *)
Definition capital (w : ascii) : ascii := ascii_of_nat (nat_of_ascii w - 32).

(** [s] is [word], a word of small letters, up to the case of each
    letter. *)
Fixpoint caseless (word s : string) : bool :=
  match word, s with
  | EmptyString, EmptyString => true
  | String w word', String c s' =>
      (Ascii.eqb c w || Ascii.eqb c (capital w)) && caseless word' s'
  | _, _ => false
  end.

(** Case-insensitive match against low, medium, high; Medium otherwise. *)
Definition match_level (s : string) : RiskLevel :=
  if caseless "low" s then LOW
  else if caseless "medium" s then MEDIUM
  else if caseless "high" s then HIGH
  else MEDIUM.

Definition parsed_level (d : gmap string pyval) : RiskLevel :=
  match d !! "overall_risk_level" with
  | Some (PStr s) => match_level s
  | _ => MEDIUM
  end.

(** The number a coercible value stands for (a bool is an int). *)
Definition number_of (float_of_str : string -> option Q) (v : pyval) : Q :=
  match v with
  | PFloat q => q
  | PInt z => inject_Z z
  | PBool b => if b then 1 else 0
  | PStr s => match float_of_str s with Some q => q | None => 0.7 end
  | PNone | PList _ | PDict _ => 0.7
  end.

(** The number read from the confidence field, 0.7 when it is absent. *)
Definition parsed_confidence (float_of_str : string -> option Q)
    (d : gmap string pyval) : Q :=
  match d !! "confidence_score" with
  | None => 0.7
  | Some v => number_of float_of_str v
  end.

(** The strings a list field yields. *)
Definition list_field (d : gmap string pyval) (key placeholder : string)
  : list string :=
  match d !! key with
  | None => [placeholder]
  | Some (PList l) => default [] (InsightResponse.all_str (take 10 l))
  | Some _ => []
  end.

(** The result the normalizer builds from a well-shaped object. *)
Definition normalized (float_of_str : string -> option Q) (d : gmap string pyval)
    (request : InsightRequest.t) : InsightResponse.t :=
  InsightResponse.mk
    (InsightRequest.category request)
    (parsed_level d)
    (list_field d "key_risks" "No risks identified")
    (list_field d "negotiation_levers" "Review contracts")
    (list_field d "recommended_actions_next_90_days" "Conduct review")
    (py_round (py_max 0 (py_min 1 (parsed_confidence float_of_str d))) 2).

(** The entries of a list field: the first ten of the parsed sequence, or
    the single placeholder when the field is absent. *)
Definition parsed_list (d : gmap string pyval) (key placeholder : string)
    (result : list string) : Prop :=
  match d !! key with
  | None => result = [placeholder]
  | Some v => exists l, v = PList l /\ PStr <$> result = take 10 l
  end.
End NormalizerSpec.

Module IngestionSpec.
(** The number a numeric input stands for (a bool is an int). *)
Definition numeric_value (v : pyval) : option Q :=
  match v with
  | PFloat q => Some q
  | PInt z => Some (inject_Z z)
  | PBool b => Some (if b then 1%Q else 0%Q)
  | _ => None
  end.

(** normalize(v) = v * 100 if 0 <= v <= 1, else v. *)
Definition normalize (v : Q) : Q :=
  if Qleb 0 v && Qleb v 1 then (v * 100)%Q else v.
End IngestionSpec.

(** ** Start-up: the client and the module-level handle *)

Module Startup.
Import LlmService.

(** Truth value of an optional str: [None] and the empty str are false. *)
Definition truthy (o : option string) : bool :=
  match o with
  | Some k => negb (String.eqb k "")
  | None => false
  end.

(** [a or b] on optional strs. *)
Definition py_or (a b : option string) : option string :=
  if truthy a then a else b.

(** [GroqService.__init__]; [getenv] is the value of the environment
    variable GROQ_API_KEY, [None] when it is not set. *)
Definition init (getenv : option string) (api_key : option string)
    (model : string) (temperature : Q) : result GroqService :=
  match py_or api_key getenv with
  | Some k => if String.eqb k "" then Raise ValueError
              else Ok (mk_GroqService k model temperature)
  | None => Raise ValueError
  end.

(** [lifespan] of app/main.py up to its [yield]: the value it leaves in the
    module-level [llm_service], which starts as [None]. *)
Definition lifespan (getenv : option string) : option GroqService :=
  if truthy getenv then
    match init getenv getenv "llama-3.3-70b-versatile" 0.3 with
    | Ok svc => Some svc
    | Raise _ => None
    end
  else None.

Record HealthResponse : Type := mk_HealthResponse {
  status : string;
  version : string;
  llm_provider : string
}.

(** [health_check]. *)
Definition health_check (llm_service : option GroqService) : HealthResponse :=
  mk_HealthResponse "healthy" "1.0.0"
    (match llm_service with Some _ => "Google Gemini" | None => "Fallback" end).

End Startup.

(** ** Aggregates and contributions, for the further properties *)

Module Aggregates.
Import Supplier LlmService.

(** A supplier makes the engine collect an action. *)
Definition needs_action (s : Supplier.t) : Prop :=
  (contract_expiry_months s <= 6)%Z.

(** The keys of a parsed object that the normalizer reads. *)
Definition read_keys : list string :=
  ["overall_risk_level"; "confidence_score"; "key_risks";
   "negotiation_levers"; "recommended_actions_next_90_days"]%string.

End Aggregates.

(** ** The rule engine over binary64 floats

    The same code, read with the arithmetic of the interpreter: a [float]
    is a binary64 number, [+], [/] and [*] round to nearest (ties to
    even), and the comparisons are those of IEEE 754. *)

Module Doubles.
Import LlmService.

(** The rational that a finite double denotes. *)
Definition Q_of_float (x : float) : Q :=
  match Prim2SF x with
  | S754_finite s m e =>
      let v := (inject_Z (Zpos m) * 2 ^ e)%Q in
      if s then (- v)%Q else v
  | _ => 0%Q
  end.



Section Formatting.
Local Open Scope string_scope.

(** [format(x, '.<prec>f')]: the exact value of a finite double, rounded
    half-even at the given place; the non-finite doubles by name. *)
Definition format_float (prec : nat) (x : float) : string :=
  match Prim2SF x with
  | S754_nan => "nan"
  | S754_infinity s => if s then "-inf" else "inf"
  | S754_zero s => (if s then "-" else "") ++ format_f prec 0
  | S754_finite _ _ _ => format_f prec (Q_of_float x)
  end.
End Formatting.

Module Supplier.

Record t : Type := mk {
  supplier_name : string;
  annual_spend_usd : float;
  on_time_delivery_pct : float;
  contract_expiry_months : Z;
  single_source_dependency : bool;
  region : string
}.

(** The constraints of the fields, on the stored values: [gt=0] for the
    spend, [ge=0] and [le=100] for the delivery rate (nan passes none of
    them, plus infinity passes [gt=0]). *)
Definition valid (s : t) : Prop :=
  (1 <= String.length (supplier_name s) <= 200)%nat /\
  (0 <? annual_spend_usd s)%float = true /\
  (0 <=? on_time_delivery_pct s)%float = true /\
  (on_time_delivery_pct s <=? 100)%float = true /\
  (0 <= contract_expiry_months s)%Z /\
  (1 <= String.length (region s))%nat.

End Supplier.

Module InsightRequest.

Record t : Type := mk {
  category : string;
  suppliers : list Supplier.t
}.

(** [sum(s.annual_spend_usd for s in self.suppliers)]: the running sum
    starts at 0 and adds each spend in turn, rounding each time (the
    built-in [sum] of CPython up to 3.11; later versions compensate the
    rounding errors of the running sum). *)
Definition total_spend (r : t) : float :=
  fold_left (fun acc s => (acc + Supplier.annual_spend_usd s)%float)
            (suppliers r) 0%float.

(** A request that passed validation. *)
Definition valid (r : t) : Prop :=
  (1 <= String.length (category r) <= 100)%nat /\
  (1 <= length (suppliers r))%nat /\
  Forall Supplier.valid (suppliers r).

End InsightRequest.

Local Abbreviation validate_str_list := InsightResponse.validate_str_list.

Module InsightResponse.

Record t : Type := mk {
  category : string;
  overall_risk_level : RiskLevel;
  key_risks : list string;
  negotiation_levers : list string;
  recommended_actions_next_90_days : list string;
  confidence_score : float
}.

(** The constructor call [InsightResponse(...)]. *)
Definition init (category : string) (overall_risk_level : RiskLevel)
    (key_risks negotiation_levers recommended_actions_next_90_days : pyval)
    (confidence_score : float) : result t :=
  let! kr := validate_str_list key_risks in
  let! nl := validate_str_list negotiation_levers in
  let! ra := validate_str_list recommended_actions_next_90_days in
  if ((0 <=? confidence_score)%float && (confidence_score <=? 1)%float)%bool
  then Ok (mk category overall_risk_level kr nl ra confidence_score)
  else Raise ValidationError.

End InsightResponse.

(** [a / b] on floats: a zero divisor, of either sign, raises. *)
Definition py_div (a b : float) : result float :=
  if (b =? 0)%float then Raise ZeroDivisionError else Ok (a / b)%float.

Section Messages.
Import Supplier.
Local Open Scope string_scope.

Definition msg_single_source (s : Supplier.t) (pct : float) : string :=
  "Single-source: " ++ supplier_name s ++ " ($" ++
  format_float 1 (annual_spend_usd s / 1000000)%float ++ "M, " ++
  format_float 0 pct ++ "%)".

Definition msg_urgent (s : Supplier.t) : string :=
  "Urgent: " ++ supplier_name s ++ " expires in " ++
  str_of_int (contract_expiry_months s) ++ " months".

Definition msg_renew (s : Supplier.t) : string :=
  "Renew contract with " ++ supplier_name s.

Definition msg_renewal_talks (s : Supplier.t) : string :=
  "Start renewal talks with " ++ supplier_name s.

Definition msg_low_delivery (s : Supplier.t) : string :=
  "Low delivery: " ++ supplier_name s ++ " at " ++
  format_float 0 (on_time_delivery_pct s) ++ "%".

Definition msg_top_performer (s : Supplier.t) : string :=
  "Top performer: " ++ supplier_name s ++ " (" ++
  format_float 0 (on_time_delivery_pct s) ++ "%)".

Definition msg_volume (s : Supplier.t) (pct : float) : string :=
  "Volume leverage: " ++ supplier_name s ++ " (" ++ format_float 0 pct ++ "% spend)".
End Messages.

Module FallbackInsightGenerator.
Import Supplier.

(** One iteration of the loop over the suppliers. *)
Definition loop_body (total_spend : float) (st : collected) (s : Supplier.t)
  : result collected :=
  let! ratio := py_div (annual_spend_usd s) total_spend in
  let pct := (ratio * 100)%float in
  let st :=
    if single_source_dependency s
    then mk_collected (risks st ++ [msg_single_source s pct]) (levers st) (actions st)
    else st in
  let st :=
    if (contract_expiry_months s <=? 3)%Z
    then mk_collected (risks st ++ [msg_urgent s]) (levers st)
                      (actions st ++ [msg_renew s])
    else if (contract_expiry_months s <=? 6)%Z
    then mk_collected (risks st) (levers st) (actions st ++ [msg_renewal_talks s])
    else st in
  let st :=
    if (on_time_delivery_pct s <? 85)%float
    then mk_collected (risks st ++ [msg_low_delivery s]) (levers st) (actions st)
    else st in
  let st :=
    if (95 <=? on_time_delivery_pct s)%float
    then mk_collected (risks st) (levers st ++ [msg_top_performer s]) (actions st)
    else st in
  let st :=
    if (30 <=? pct)%float
    then mk_collected (risks st) (levers st ++ [msg_volume s pct]) (actions st)
    else st in
  Ok st.

(** The two flags computed after the loop.  The division inside the first
    [any] cannot raise here: it runs only when there is a supplier, and
    then the loop has already divided by the same total. *)
Definition high_risk (total_spend : float) (suppliers : list Supplier.t) : bool :=
  existsb (fun s => single_source_dependency s &&
                    (0.4 <? annual_spend_usd s / total_spend)%float) suppliers
  || existsb (fun s => (contract_expiry_months s <=? 3)%Z) suppliers
  || existsb (fun s => (on_time_delivery_pct s <? 80)%float) suppliers.

Definition med_risk (suppliers : list Supplier.t) : bool :=
  existsb (fun s => (contract_expiry_months s <=? 6)%Z) suppliers
  || existsb (fun s => (on_time_delivery_pct s <? 90)%float) suppliers.

Definition generate (request : InsightRequest.t) : result InsightResponse.t :=
  let total_spend := InsightRequest.total_spend request in
  let suppliers := InsightRequest.suppliers request in
  let! st := for_each (loop_body total_spend) suppliers (mk_collected [] [] []) in
  let level :=
    if high_risk total_spend suppliers then HIGH
    else if med_risk suppliers then MEDIUM
    else LOW in
  InsightResponse.init
    (InsightRequest.category request)
    level
    (PList (PStr <$> list_or (take 5 (risks st)) default_risks))
    (PList (PStr <$> list_or (take 5 (levers st)) default_levers))
    (PList (PStr <$> list_or (take 5 (actions st)) default_actions))
    0.65%float.
End FallbackInsightGenerator.

End Doubles.

(** ** The rules of the engine over binary64 floats, as the specification
    words them *)

Module DoublesSpec.
Import LlmService Doubles Doubles.Supplier.




(** The High and Medium conditions on one supplier; the share of the
    spend is the double quotient of the spend by the total, and 0.4 is the
    double nearest to 4/10. *)
Definition triggers_high (total : float) (s : Supplier.t) : Prop :=
  (single_source_dependency s = true /\
   (0.4 <? annual_spend_usd s / total)%float = true) \/
  (contract_expiry_months s <= 3)%Z \/
  (on_time_delivery_pct s <? 80)%float = true.


(** Spend share, as the engine computes it. *)
Definition share_pct (total : float) (s : Supplier.t) : float :=
  (annual_spend_usd s / total * 100)%float.

(** The entries one supplier contributes to each list, in emission order. *)
Definition risks_of (total : float) (s : Supplier.t) : list string :=
  (if single_source_dependency s then [msg_single_source s (share_pct total s)] else [])
  ++ (if (contract_expiry_months s <=? 3)%Z then [msg_urgent s] else [])
  ++ (if (on_time_delivery_pct s <? 85)%float then [msg_low_delivery s] else []).

Definition levers_of (total : float) (s : Supplier.t) : list string :=
  (if (95 <=? on_time_delivery_pct s)%float then [msg_top_performer s] else [])
  ++ (if (30 <=? share_pct total s)%float then [msg_volume s (share_pct total s)] else []).

Definition actions_of (s : Supplier.t) : list string :=
  if (contract_expiry_months s <=? 3)%Z then [msg_renew s]
  else if (contract_expiry_months s <=? 6)%Z then [msg_renewal_talks s]
  else [].



Definition needs_action (s : Supplier.t) : Prop :=
  (contract_expiry_months s <= 6)%Z.

(** The level the engine assigns, read off its two flags. *)
Definition level_of (total : float) (l : list Supplier.t) : RiskLevel :=
  if FallbackInsightGenerator.high_risk total l then HIGH
  else if FallbackInsightGenerator.med_risk l then MEDIUM else LOW.








End DoublesSpec.

(** ** Sample data *)

Module Examples.
(** One single-source supplier holding the whole spend. *)
Definition tech_source : Supplier.t :=
  Supplier.mk "TechSource Inc" 4200000 92 6 true "North America".
Definition scenario_a : InsightRequest.t :=
  InsightRequest.mk "IT Hardware" [tech_source].

(** A contract about to expire next to a well-performing supplier. *)
Definition expiring : Supplier.t :=
  Supplier.mk "GlobalComp" 1000000 75 2 false "Europe".
Definition steady : Supplier.t :=
  Supplier.mk "NextGen" 3000000 97 12 false "Asia".
Definition scenario_b : InsightRequest.t :=
  InsightRequest.mk "IT Hardware" [expiring; steady].

Definition groq : LlmService.GroqService :=
  LlmService.mk_GroqService "key" "llama-3.3-70b-versatile" 0.3.

(** Stand-ins for the external parameters: a decoder that rejects every
    text, one that decodes every text to the same object, and an exchange
    that answers with a fixed text. *)
Definition no_json (_ : string) : result pyval := Raise JSONDecodeError.
Definition no_float (_ : string) : option Q := None.
Definition api_says (text : string) (_ : LlmService.GroqService)
  (_ : InsightRequest.t) : result string := Ok text.
Definition json_const (v : pyval) (_ : string) : result pyval := Ok v.

(** [n] opening brackets: the start of arrays nested [n] deep. *)
Fixpoint nested (n : nat) : string :=
  match n with
  | O => EmptyString
  | S n' => String "[" (nested n')
  end.

(** A decoder that knows four texts, and answers on them, and on the
    texts made of one of the first three and a trailing fence, as
    [json.loads] does: it runs out of stack on 5000 opening brackets,
    which is beyond the recursion limit of the interpreter. *)
Definition json_sample (t : string) : result pyval :=
  if String.eqb t "[1, 2]" then Ok (PList [PInt 1; PInt 2])
  else if String.eqb t "[{}]" then Ok (PList [PDict ∅])
  else if String.eqb t "{}" then Ok (PDict ∅)
  else if String.eqb t (nested (50 * 100)) then Raise RecursionError
  else Raise JSONDecodeError.

(** A decoder that runs out of stack on every text. *)
Definition json_overflows (_ : string) : result pyval := Raise RecursionError.

(** A parsed object whose confidence is an int beyond the doubles. *)
Definition huge_confidence : gmap string pyval :=
  <["confidence_score" := PInt (2 ^ 1024)]> ∅.

(** A reply that ends with a fence and does not open with one. *)
Definition fence_after (t : string) : string :=
  (t ++ String LlmService.LF "```")%string.

(** Parsed objects: one whose key risks are present but empty, one whose
    risk level is a number, one that is well-shaped except for an empty
    list of levers, and a well-shaped one. *)
Definition empty_risks : gmap string pyval :=
  <["key_risks" := PList []]> ∅.
Definition numeric_level : gmap string pyval :=
  <["overall_risk_level" := PInt 5]> ∅.
Definition well_formed : gmap string pyval :=
  <["overall_risk_level" := PStr "HIGH"]>
  (<["confidence_score" := PFloat 0.874]>
  (<["key_risks" := PList [PStr "Single source"]]> ∅)).
End Examples.

Module MoreExamples.
(** The suppliers the form of frontend.py proposes. *)
Definition default_suppliers : list Supplier.t :=
  [ Supplier.mk "TechSource Inc." 4200000 92 6 true "North America";
    Supplier.mk "GlobalComp Solutions" 3100000 85 3 false "Asia";
    Supplier.mk "NextGen Systems" 1800000 97 12 false "Europe" ].
Definition default_request : InsightRequest.t :=
  InsightRequest.mk "IT Hardware" default_suppliers.

(** Three suppliers that trigger nothing but a lever. *)
Definition quiet_suppliers : list Supplier.t :=
  [ Supplier.mk "A" 500 93 12 false "Asia";
    Supplier.mk "B" 300 94 24 false "Europe";
    Supplier.mk "C" 200 91 9 false "Asia" ].
Definition quiet_request : InsightRequest.t :=
  InsightRequest.mk "Packaging" quiet_suppliers.

(** A reading of numeric strings that knows one text. *)
Definition half_float (t : string) : option Q :=
  if String.eqb t "0.5" then Some 0.5%Q else None.
End MoreExamples.

Module DoubleExamples.
Import Doubles.

(** A contract about to expire next to a well-performing supplier, and the
    same figures under other names with every spend doubled. *)
Definition scenario_b : InsightRequest.t :=
  InsightRequest.mk "IT Hardware"
    [ Supplier.mk "GlobalComp" 1000000 75 2 false "Europe";
      Supplier.mk "NextGen" 3000000 97 12 false "Asia" ].



(** Three suppliers that trigger nothing but a lever. *)
Definition quiet_request : InsightRequest.t :=
  InsightRequest.mk "Packaging"
    [ Supplier.mk "A" 500 93 12 false "Asia";
      Supplier.mk "B" 300 94 24 false "Europe";
      Supplier.mk "C" 200 91 9 false "Asia" ].

End DoubleExamples.

(** ** Comparisons and rounding *)

Lemma Qleb_le (x y : Q) : Qleb x y = true <-> (x <= y)%Q.
Proof. unfold Qleb. apply Qle_bool_iff. Qed.

Lemma Qltb_lt (x y : Q) : Qltb x y = true <-> (x < y)%Q.
Proof.
  unfold Qltb. rewrite negb_true_iff.
  split; intros H.
  - apply Qnot_le_lt. intros Hle. apply Qle_bool_iff in Hle. congruence.
  - destruct (Qle_bool y x) eqn:E; [|reflexivity].
    apply Qle_bool_iff in E. exfalso. eapply Qlt_not_le; eauto.
Qed.

Lemma Qleb_false (x y : Q) : Qleb x y = false <-> (y < x)%Q.
Proof.
  rewrite <- Qltb_lt. unfold Qltb, Qleb.
  destruct (Qle_bool x y); simpl; split; congruence.
Qed.

Lemma Qltb_false (x y : Q) : Qltb x y = false <-> (y <= x)%Q.
Proof.
  rewrite <- Qleb_le. unfold Qltb, Qleb.
  destruct (Qle_bool y x); simpl; split; congruence.
Qed.

Lemma py_min_spec (a b : Q) : (py_min a b == Qmin a b)%Q.
Proof.
  unfold py_min. destruct (Qltb b a) eqn:E.
  - apply Qltb_lt in E. symmetry. apply Q.min_r. now apply Qlt_le_weak.
  - apply Qltb_false in E. symmetry. now apply Q.min_l.
Qed.

Lemma py_max_spec (a b : Q) : (py_max a b == Qmax a b)%Q.
Proof.
  unfold py_max. destruct (Qltb a b) eqn:E.
  - apply Qltb_lt in E. symmetry. apply Q.max_r. now apply Qlt_le_weak.
  - apply Qltb_false in E. symmetry. now apply Q.max_l.
Qed.

(** The clamp [max(0.0, min(1.0, f))] lands in [0, 1]. *)
Lemma clamp_bounds (f : Q) :
  (0 <= py_max 0 (py_min 1 f) <= 1)%Q.
Proof.
  unfold py_max, py_min.
  destruct (Qltb f 1) eqn:E1.
  - apply Qltb_lt in E1. destruct (Qltb 0 f) eqn:E2.
    + apply Qltb_lt in E2. split; lra.
    + split; lra.
  - destruct (Qltb 0 1) eqn:E2; split; lra.
Qed.

Lemma round_half_even_mono_int (x : Q) (k : Z) :
  (inject_Z k <= x)%Q -> (k <= round_half_even x)%Z.
Proof.
  destruct x as [n d]. unfold Qle, round_half_even. simpl.
  intros H. rewrite Z.mul_1_r in H.
  assert (Hk : (k <= n / Z.pos d)%Z) by (apply Z.div_le_lower_bound; lia).
  repeat match goal with |- context [if ?b then _ else _] => destruct b end; lia.
Qed.

Lemma round_half_even_le_int (x : Q) (k : Z) :
  (x <= inject_Z k)%Q -> (round_half_even x <= k)%Z.
Proof.
  destruct x as [n d]. unfold Qle, round_half_even. simpl.
  intros H. rewrite Z.mul_1_r in H.
  pose proof (Z.div_mod n (Z.pos d) ltac:(lia)) as Hdm.
  pose proof (Z.mod_pos_bound n (Z.pos d) ltac:(lia)) as Hr.
  assert (Hq : (n / Z.pos d <= k)%Z).
  { apply Z.div_le_upper_bound; lia. }
  destruct (Z.eq_dec (n / Z.pos d)%Z k) as [Heq|Hne].
  - assert (Hr0 : (n mod Z.pos d = 0)%Z) by nia.
    rewrite Hr0. simpl.
    destruct (0 <? Z.pos d)%Z eqn:E; [lia|]. apply Z.ltb_ge in E. lia.
  - repeat match goal with |- context [if ?b then _ else _] => destruct b end; lia.
Qed.

(** Rounding to two decimals keeps a value of [0, 1] in [0, 1]. *)
Lemma py_round2_bounds (x : Q) :
  (0 <= x <= 1)%Q -> (0 <= py_round x 2 <= 1)%Q.
Proof.
  intros [H0 H1]. unfold py_round.
  change (pow10 2) with 100%positive.
  assert (Ha : (0 <= round_half_even (x * inject_Z 100))%Z).
  { apply round_half_even_mono_int. change (inject_Z 0) with 0%Q.
    change (inject_Z 100) with 100%Q. lra. }
  assert (Hb : (round_half_even (x * inject_Z 100) <= 100)%Z).
  { apply round_half_even_le_int. change (inject_Z 100) with 100%Q. lra. }
  unfold Qle. simpl. lia.
Qed.

(** ** The fallback rule engine *)

Section FallbackFacts.
Import Supplier LlmService FallbackSpec.
Import FallbackInsightGenerator.

Lemma running_sum_pos (l : list Supplier.t) (a : Q) :
    Forall Supplier.valid l -> (0 < a)%Q ->
    (0 < fold_left (fun acc s => (acc + annual_spend_usd s)%Q) l a)%Q.
  Proof.
    revert a. induction l as [|s l IH]; intros a Hl Ha; simpl; [exact Ha|].
    inversion Hl as [|? ? Hs Hl']; subst.
    apply IH; [exact Hl'|].
    destruct Hs as (_ & Hpos & _). lra.
  Qed.

(** The total spend of a valid request is strictly positive. *)
Lemma total_spend_pos (req : InsightRequest.t) :
    InsightRequest.valid req -> (0 < InsightRequest.total_spend req)%Q.
  Proof.
    intros (_ & Hlen & Hall). unfold InsightRequest.total_spend.
    destruct (InsightRequest.suppliers req) as [|s l]; simpl in *; [lia|].
    inversion Hall as [|? ? Hs Hl]; subst.
    apply running_sum_pos; [exact Hl|].
    destruct Hs as (_ & Hpos & _). lra.
  Qed.

Lemma py_div_nonzero (a b : Q) : ~ (b == 0)%Q -> py_div a b = Ok (a / b)%Q.
  Proof.
    intros Hb. unfold py_div.
    destruct (Qeq_bool b 0) eqn:E; [|reflexivity].
    apply Qeq_bool_iff in E. contradiction.
  Qed.

(** One iteration appends exactly the entries of its supplier. *)
Lemma loop_body_appends (total : Q) (st : collected) (s : Supplier.t) :
    ~ (total == 0)%Q ->
    loop_body total st s =
      Ok (mk_collected (risks st ++ risks_of total s)
                       (levers st ++ levers_of total s)
                       (actions st ++ actions_of s)).
  Proof.
    intros Ht. unfold loop_body. rewrite (py_div_nonzero _ _ Ht). simpl.
    unfold risks_of, levers_of, actions_of, share_pct.
    destruct st as [r l a]; simpl.
    destruct (single_source_dependency s);
      destruct (contract_expiry_months s <=? 3)%Z;
      destruct (contract_expiry_months s <=? 6)%Z;
      destruct (Qltb (on_time_delivery_pct s) 85);
      destruct (Qleb 95 (on_time_delivery_pct s));
      destruct (Qleb 30 (annual_spend_usd s / total * 100));
      simpl; rewrite <- ?app_assoc, ?app_nil_r; reflexivity.
  Qed.

(** The loop collects the entries in supplier iteration order. *)
Lemma for_each_collects (total : Q) (l : list Supplier.t) (st : collected) :
    ~ (total == 0)%Q ->
    for_each (loop_body total) l st =
      Ok (mk_collected (risks st ++ flat_map (risks_of total) l)
                       (levers st ++ flat_map (levers_of total) l)
                       (actions st ++ flat_map actions_of l)).
  Proof.
    intros Ht. revert st. induction l as [|s l IH]; intros st; simpl.
    - rewrite !app_nil_r. now destruct st.
    - rewrite (loop_body_appends _ _ _ Ht). simpl. rewrite IH. simpl.
      now rewrite <- !app_assoc.
  Qed.

Lemma all_str_fmap (l : list string) : InsightResponse.all_str (PStr <$> l) = Some l.
  Proof.
    induction l as [|x l IH]; [reflexivity|].
    rewrite fmap_cons. cbn [InsightResponse.all_str]. now rewrite IH.
  Qed.

Lemma list_or_take_length {A} (n : nat) (l : list A) (d : A) :
    (1 <= n)%nat -> (1 <= length (list_or (take n l) [d]) <= n)%nat.
  Proof.
    intros Hn. destruct l as [|x l].
    - rewrite take_nil. simpl. lia.
    - destruct n as [|n]; [lia|]. simpl. rewrite length_take. lia.
  Qed.

Lemma validate_str_list_fmap (l : list string) :
    (1 <= length l <= 10)%nat ->
    InsightResponse.validate_str_list (PList (PStr <$> l)) = Ok l.
  Proof.
    intros [H1 H2]. unfold InsightResponse.validate_str_list.
    rewrite all_str_fmap.
    destruct (1 <=? length l)%nat eqn:E1; [|apply Nat.leb_gt in E1; lia].
    destruct (length l <=? 10)%nat eqn:E2; [|apply Nat.leb_gt in E2; lia].
    reflexivity.
  Qed.

(** On a valid request the engine returns, and this is its result. *)
Lemma generate_valid (req : InsightRequest.t) :
    InsightRequest.valid req ->
    let total := InsightRequest.total_spend req in
    let l := InsightRequest.suppliers req in
    generate req =
      Ok (InsightResponse.mk
            (InsightRequest.category req)
            (level_of total l)
            (list_or (take 5 (flat_map (risks_of total) l)) default_risks)
            (list_or (take 5 (flat_map (levers_of total) l)) default_levers)
            (list_or (take 5 (flat_map actions_of l)) default_actions)
            0.65).
  Proof.
    intros Hv total l.
    assert (Ht : ~ (total == 0)%Q).
    { pose proof (total_spend_pos req Hv) as Hp. fold total in Hp. lra. }
    unfold generate. fold total. fold l.
    rewrite (for_each_collects total l _ Ht).
    cbn [bind risks levers actions app]. unfold InsightResponse.init.
    rewrite !validate_str_list_fmap.
    - reflexivity.
    - pose proof (list_or_take_length 5 (flat_map actions_of l)
                    "Quarterly supplier review"%string ltac:(lia)).
      unfold default_actions. lia.
    - pose proof (list_or_take_length 5 (flat_map (levers_of total) l)
                    "Review contracts for opportunities"%string ltac:(lia)).
      unfold default_levers. lia.
    - pose proof (list_or_take_length 5 (flat_map (risks_of total) l)
                    "No critical risks identified"%string ltac:(lia)).
      unfold default_risks. lia.
  Qed.
End FallbackFacts.

Section FallbackLevel.
Import Supplier LlmService FallbackSpec.
Import FallbackInsightGenerator.





End FallbackLevel.

(** ** Properties of the fallback rule engine *)

Ltac solve_valid :=
  repeat match goal with
         | |- _ /\ _ => split
         | |- Forall _ _ => constructor
         | |- InsightRequest.valid _ => unfold InsightRequest.valid
         | |- Supplier.valid _ => unfold Supplier.valid
         end; simpl; try lia; try (unfold Qlt, Qle; simpl; lia).

Section FallbackProperties.
Import Supplier LlmService FallbackSpec.
Import FallbackInsightGenerator.




End FallbackProperties.

(** ** Binary64 arithmetic *)

Section DoubleArithmetic.
Import Doubles.
Local Open Scope Z_scope.









End DoubleArithmetic.

Section DoubleComparisons.
Import Doubles.







End DoubleComparisons.

(** ** The rule engine over binary64 floats *)

Section DoublesFacts.
Import LlmService Doubles Doubles.Supplier DoublesSpec.
Import Doubles.FallbackInsightGenerator.










End DoublesFacts.


Section DoublesProperties.
Import LlmService Doubles Doubles.Supplier DoublesSpec.
Import Doubles.FallbackInsightGenerator.






End DoublesProperties.

(** ** The response parser *)

Section ParserFacts.
Import LlmService ParserSpec.
Local Open Scope string_scope.
Local Arguments String.append !_ _ / : simpl nomatch.

Lemma str_app_assoc (a b c : string) : (a ++ b) ++ c = a ++ (b ++ c).
  Proof.
    induction a as [|x a IH]; cbn [append]; [reflexivity|]. now rewrite IH.
  Qed.

Lemma from_first_open_app (pre rest : string) :
    has_char "{" pre = false ->
    from_first_open (pre ++ String "{" rest) = Some (String "{" rest).
  Proof.
    induction pre as [|c pre IH]; cbn [append has_char from_first_open]; intros H.
    - reflexivity.
    - apply orb_false_iff in H as [Hc Hp]. unfold is_open_brace. rewrite Hc.
      now apply IH.
  Qed.

Lemma from_first_open_inv (s r : string) :
    from_first_open s = Some r ->
    exists pre rest, s = pre ++ r /\ r = String "{" rest /\ has_char "{" pre = false.
  Proof.
    revert r. induction s as [|c s IH]; cbn [from_first_open]; intros r H.
    - discriminate.
    - unfold is_open_brace in H. destruct (Ascii.eqb c "{") eqn:E.
      + injection H as <-. apply Ascii.eqb_eq in E. subst c.
        exists "", s. repeat split.
      + destruct (IH r H) as (pre & rest & Hs & Hr & Hp).
        exists (String c pre), rest. cbn [append has_char]. rewrite E, Hp, Hs.
        repeat split. exact Hr.
  Qed.

Lemma upto_last_close_none (post : string) :
    has_char "}" post = false -> upto_last_close post = None.
  Proof.
    induction post as [|c post IH]; cbn [has_char upto_last_close]; intros H.
    - reflexivity.
    - apply orb_false_iff in H as [Hc Hp]. rewrite (IH Hp).
      unfold is_close_brace. now rewrite Hc.
  Qed.

Lemma upto_last_close_app (x post : string) :
    has_char "}" post = false ->
    upto_last_close (x ++ String "}" post) = Some (x ++ String "}" "").
  Proof.
    intros H. induction x as [|c x IH]; cbn [append upto_last_close].
    - now rewrite (upto_last_close_none post H).
    - now rewrite IH.
  Qed.

Lemma upto_last_close_inv (s m : string) :
    upto_last_close s = Some m ->
    exists x post, s = m ++ post /\ m = x ++ String "}" "" /\
                   has_char "}" post = false.
  Proof.
    revert m. induction s as [|c s IH]; cbn [upto_last_close]; intros m H.
    - discriminate.
    - destruct (upto_last_close s) as [r|] eqn:E.
      + injection H as <-. destruct (IH r eq_refl) as (x & post & Hs & Hr & Hp).
        exists (String c x), post. cbn [append]. rewrite <- Hr, <- Hs.
        repeat split. exact Hp.
      + unfold is_close_brace in H. destruct (Ascii.eqb c "}") eqn:Ec; [|discriminate].
        injection H as <-. apply Ascii.eqb_eq in Ec. subst c.
        exists "", s. repeat split.
        clear IH. induction s as [|a s IHs]; [reflexivity|].
        cbn [upto_last_close] in E. cbn [has_char].
        destruct (upto_last_close s); [discriminate|].
        unfold is_close_brace in E.
        destruct (Ascii.eqb a "}"); [discriminate|]. now apply IHs.
  Qed.

(** What the search returns is the span between the outermost braces. *)
Lemma re_search_braces_sound (s m : string) :
    re_search_braces s = Some m ->
    exists pre post, s = pre ++ m ++ post /\ outermost_braces pre m post.
  Proof.
    unfold re_search_braces. intros H.
    destruct (from_first_open s) as [r|] eqn:E; [|discriminate].
    destruct (from_first_open_inv s r E) as (pre & rest & Hs & Hr & Hp).
    destruct (upto_last_close_inv r m H) as (x & post & Hrm & Hm & Hq).
    exists pre, post. split; [now rewrite <- Hrm|].
    split; [exact Hp|]. split; [exact Hq|].
    destruct x as [|c x].
    - subst m r. cbn [append] in Hrm. discriminate.
    - subst m r. cbn [append] in Hrm. injection Hrm as <- _.
      exists x. reflexivity.
  Qed.

(** The span between the outermost braces is what the search returns. *)
Lemma re_search_braces_complete (pre m post : string) :
    outermost_braces pre m post -> re_search_braces (pre ++ m ++ post) = Some m.
  Proof.
    intros (Hp & Hq & body & ->). unfold re_search_braces.
    cbn [append]. rewrite (from_first_open_app _ _ Hp).
    rewrite str_app_assoc. cbn [append].
    apply (upto_last_close_app (String "{" body) post Hq).
  Qed.

(** The search fails exactly when no opening brace is followed by a
    closing one. *)
Lemma re_search_braces_none (s : string) :
    re_search_braces s = None ->
    forall pre m post, s = pre ++ m ++ post -> ~ outermost_braces pre m post.
  Proof.
    intros H pre m post -> Ho.
    rewrite (re_search_braces_complete _ _ _ Ho) in H. discriminate.
  Qed.

(** The whitespace of the code is the whitespace of the specification. *)
Lemma is_space_whitespace (c : ascii) : is_space c = whitespace c.
  Proof. destruct c as [[] [] [] [] [] [] [] []]; reflexivity. Qed.

Lemma lstrip_spaces (ws body : string) :
    all_space ws = true -> lstrip (ws ++ body) = lstrip body.
  Proof.
    induction ws as [|c ws IH]; cbn [all_space append lstrip]; intros H.
    - reflexivity.
    - apply andb_true_iff in H as [Hc Hw]. rewrite is_space_whitespace, Hc.
      now apply IH.
  Qed.

Lemma startswith_app (p s : string) : startswith p (p ++ s) = true.
  Proof.
    unfold startswith. induction p as [|c p IH]; simpl.
    - destruct s; reflexivity.
    - destruct (ascii_dec c c); [exact IH | congruence].
  Qed.

Lemma str_app_nil_r (a : string) : a ++ "" = a.
  Proof. induction a as [|x a IH]; simpl; [reflexivity|]. now rewrite IH. Qed.

Lemma rev_app_acc (a acc : string) : String.rev_app a acc = String.rev a ++ acc.
  Proof.
    unfold String.rev. revert acc.
    induction a as [|x a IH]; intros acc; simpl; [reflexivity|].
    rewrite (IH (String x acc)), (IH (String x "")).
    now rewrite str_app_assoc.
  Qed.

Lemma rev_cons (x : ascii) (a : string) :
    String.rev (String x a) = String.rev a ++ String x "".
  Proof. unfold String.rev at 1. simpl. apply rev_app_acc. Qed.

Lemma rev_app (a b : string) : String.rev (a ++ b) = String.rev b ++ String.rev a.
  Proof.
    induction a as [|x a IH]; simpl.
    - change (String.rev "") with "". now rewrite str_app_nil_r.
    - now rewrite !rev_cons, IH, str_app_assoc.
  Qed.

Lemma rev_involutive (a : string) : String.rev (String.rev a) = a.
  Proof.
    induction a as [|x a IH]; [reflexivity|].
    rewrite rev_cons, rev_app, IH. reflexivity.
  Qed.

Lemma all_space_app (a b : string) :
    all_space (a ++ b) = all_space a && all_space b.
  Proof.
    induction a as [|x a IH]; simpl; [reflexivity|].
    now rewrite IH, andb_assoc.
  Qed.

Lemma all_space_rev (a : string) : all_space (String.rev a) = all_space a.
  Proof.
    induction a as [|x a IH]; [reflexivity|].
    rewrite rev_cons, all_space_app, IH. simpl.
    rewrite andb_true_r. apply andb_comm.
  Qed.

Lemma rstrip_spaces (body ws : string) :
    all_space ws = true -> rstrip (body ++ ws) = rstrip body.
  Proof.
    intros H. unfold rstrip. rewrite rev_app, lstrip_spaces; [reflexivity|].
    now rewrite all_space_rev.
  Qed.

Lemma drop_chars_app (p s : string) : drop_chars (String.length p) (p ++ s) = s.
  Proof. induction p as [|x p IH]; simpl; [reflexivity | exact IH]. Qed.

Lemma length_rev (p : string) : String.length (String.rev p) = String.length p.
  Proof.
    induction p as [|x p IH]; [reflexivity|].
    rewrite rev_cons. simpl. rewrite <- IH.
    generalize (String.rev p). intros r.
    induction r as [|y r IHr]; simpl; [reflexivity|]. now rewrite IHr.
  Qed.

(** [lstrip] takes off a stretch of whitespace, and what it leaves does
    not start with whitespace. *)
Lemma lstrip_decompose (s : string) :
    exists w, s = w ++ lstrip s /\ all_space w = true /\ no_space_first (lstrip s).
  Proof.
    induction s as [|c s (w & Hs & Hw & Hn)]; cbn [lstrip].
    - exists "". repeat split.
    - rewrite is_space_whitespace. destruct (whitespace c) eqn:E.
      + exists (String c w). cbn [append all_space]. rewrite E, Hw, <- Hs.
        repeat split. exact Hn.
      + exists "". repeat split. exact E.
  Qed.

(** [rstrip] takes off a stretch of whitespace, and what it leaves does
    not end with whitespace. *)
Lemma rstrip_decompose (s : string) :
    exists w, s = rstrip s ++ w /\ all_space w = true /\ no_space_last (rstrip s).
  Proof.
    unfold rstrip.
    destruct (lstrip_decompose (String.rev s)) as (w & Hs & Hw & Hn).
    exists (String.rev w). split; [|split].
    - rewrite <- rev_app, <- Hs. symmetry. apply rev_involutive.
    - now rewrite all_space_rev.
    - intros r c Hr.
      assert (Hl : lstrip (String.rev s) = String c (String.rev r)).
      { rewrite <- (rev_involutive (lstrip (String.rev s))), Hr, rev_app.
        reflexivity. }
      rewrite Hl in Hn. exact Hn.
  Qed.

Lemma no_space_first_prefix (b w : string) :
    no_space_first (b ++ w) -> no_space_last b -> no_space_first b.
  Proof. destruct b as [|c b]; [constructor|]. cbn [append]. auto. Qed.

Lemma no_space_last_suffix (pre r : string) :
    no_space_last (pre ++ r) -> no_space_last r.
  Proof.
    intros H r' c ->. apply (H (pre ++ r') c). now rewrite str_app_assoc.
  Qed.

(** [strip] returns the text without the whitespace around it. *)
Lemma strip_stripped (text : string) : stripped text (strip text).
  Proof.
    unfold strip.
    destruct (lstrip_decompose text) as (w1 & H1 & Hw1 & Hn1).
    destruct (rstrip_decompose (lstrip text)) as (w2 & H2 & Hw2 & Hn2).
    exists w1, w2. split; [now rewrite <- H2|].
    split; [exact Hw1|]. split; [exact Hw2|]. split; [|exact Hn2].
    apply (no_space_first_prefix _ w2); [now rewrite <- H2 | exact Hn2].
  Qed.

Lemma startswith_iff (p s : string) : startswith p s = true <-> starts_with p s.
  Proof.
    unfold startswith, starts_with. revert s.
    induction p as [|a p IH]; intros s.
    - split; [intros _; now exists s|]. intros _. now destruct s.
    - destruct s as [|b s]; cbn [String.prefix].
      + split; [discriminate|]. intros [r Hr]. discriminate Hr.
      + destruct (ascii_dec a b) as [->|Hab].
        * rewrite IH. split; intros [r Hr]; exists r.
          -- cbn [append]. now rewrite Hr.
          -- cbn [append] in Hr. now injection Hr.
        * split; [discriminate|]. intros [r Hr]. cbn [append] in Hr.
          injection Hr as Hc _. congruence.
  Qed.

Lemma endswith_iff (p s : string) : endswith p s = true <-> ends_with p s.
  Proof.
    unfold endswith. fold (startswith (String.rev p) (String.rev s)).
    rewrite startswith_iff. unfold starts_with, ends_with.
    split; intros [r Hr].
    - exists (String.rev r).
      rewrite <- (rev_involutive s), Hr, rev_app. now rewrite rev_involutive.
    - exists (String.rev r). now rewrite Hr, rev_app.
  Qed.

Lemma drop_last_chars_app (s p : string) :
    drop_last_chars (String.length p) (s ++ p) = s.
  Proof.
    unfold drop_last_chars. rewrite rev_app, <- (length_rev p).
    rewrite drop_chars_app. apply rev_involutive.
  Qed.

(** The first substitution removes the opening fence. *)
Lemma re_sub_fence_open_removed (b : string) :
    starts_with "```" b -> opening_removed b (re_sub_fence_open b).
  Proof.
    intros [r0 ->]. unfold re_sub_fence_open, fence.
    rewrite startswith_app.
    change (drop_chars 3 ("```" ++ r0)) with r0. cbv zeta.
    destruct (startswith "json" r0) eqn:Ej.
    - apply startswith_iff in Ej as [r1 ->].
      change (drop_chars 4 ("json" ++ r1)) with r1.
      destruct (lstrip_decompose r1) as (w & Hr & Hw & Hn).
      exists "json", w. rewrite <- Hr. repeat split; auto.
    - destruct (lstrip_decompose r0) as (w & Hr & Hw & Hn).
      exists "", w. cbn [append]. rewrite <- Hr. repeat split; auto.
      right. split; [reflexivity|]. intros Hs.
      apply startswith_iff in Hs. congruence.
  Qed.

(** The second substitution removes a closing fence, on a text that does
    not end with whitespace. *)
Lemma re_sub_fence_close_removed (r : string) :
    no_space_last r -> closing_removed r (re_sub_fence_close r).
  Proof.
    intros Hn. unfold re_sub_fence_close, fence.
    destruct (endswith "```" r) eqn:E1.
    - apply endswith_iff in E1 as [x ->].
      change 3%nat with (String.length "```"). rewrite drop_last_chars_app.
      destruct (rstrip_decompose x) as (w & Hx & Hw & Hl).
      left. exists w. split; [|split; [exact Hw | exact Hl]].
      now rewrite <- str_app_assoc, <- Hx.
    - destruct (endswith ("```" ++ String LF "") r) eqn:E2.
      + exfalso. apply endswith_iff in E2 as [x ->].
        specialize (Hn (x ++ "```") LF).
        rewrite str_app_assoc in Hn. specialize (Hn eq_refl). discriminate Hn.
      + right. split; [|reflexivity]. intros He.
        apply endswith_iff in He. congruence.
  Qed.

(** The text that the parser hands to the decoder is the cleaned text of
    the specification. *)
Lemma parse_response_cleans (text : string) :
    cleaned text
      (if startswith fence (strip text)
       then re_sub_fence_close (re_sub_fence_open (strip text))
       else strip text).
  Proof.
    pose proof (strip_stripped text) as Hs.
    exists (strip text). split; [exact Hs|].
    destruct (startswith fence (strip text)) eqn:E.
    - right. apply startswith_iff in E.
      pose proof (re_sub_fence_open_removed _ E) as Ho.
      exists (re_sub_fence_open (strip text)). split; [exact Ho|].
      apply re_sub_fence_close_removed.
      destruct Hs as (_ & _ & _ & _ & _ & _ & Hl).
      destruct Ho as (tag & w & Hb & _).
      rewrite Hb in Hl.
      apply (no_space_last_suffix ("```" ++ tag ++ w)).
      now rewrite !str_app_assoc.
    - left. split; [|reflexivity]. intros He.
      apply startswith_iff in He. unfold fence in E. congruence.
  Qed.

(** The cleaned text of the specification is determined by the text. *)
Lemma blank_prefix_unique (w1 w2 x1 x2 : string) :
    w1 ++ x1 = w2 ++ x2 -> all_space w1 = true -> all_space w2 = true ->
    no_space_first x1 -> no_space_first x2 -> w1 = w2 /\ x1 = x2.
  Proof.
    revert w2. induction w1 as [|c w1 IH]; intros w2 H H1 H2 N1 N2.
    - destruct w2 as [|d w2]; [now split|]. cbn [append] in H. subst x1.
      cbn [all_space] in H2. apply andb_true_iff in H2 as [Hd _].
      cbn [no_space_first] in N1. congruence.
    - destruct w2 as [|d w2].
      + cbn [append] in H. subst x2.
        cbn [all_space] in H1. apply andb_true_iff in H1 as [Hc _].
        cbn [no_space_first] in N2. congruence.
      + cbn [append] in H. injection H as -> H.
        cbn [all_space] in H1, H2.
        apply andb_true_iff in H1 as [_ H1]. apply andb_true_iff in H2 as [_ H2].
        destruct (IH w2 H H1 H2 N1 N2) as [-> ->]. now split.
  Qed.

Lemma no_space_last_rev (x : string) :
    no_space_last x -> no_space_first (String.rev x).
  Proof.
    intros H. destruct (String.rev x) as [|c t] eqn:E; [constructor|].
    cbn [no_space_first]. apply (H (String.rev t) c).
    rewrite <- (rev_involutive x), E, rev_cons. reflexivity.
  Qed.

Lemma blank_suffix_unique (x1 x2 w1 w2 : string) :
    x1 ++ w1 = x2 ++ w2 -> all_space w1 = true -> all_space w2 = true ->
    no_space_last x1 -> no_space_last x2 -> x1 = x2 /\ w1 = w2.
  Proof.
    intros H H1 H2 N1 N2.
    apply (f_equal String.rev) in H. rewrite !rev_app in H.
    destruct (blank_prefix_unique _ _ _ _ H) as [Hw Hx];
      rewrite ?all_space_rev; auto using no_space_last_rev.
    split.
    - rewrite <- (rev_involutive x1), Hx. apply rev_involutive.
    - rewrite <- (rev_involutive w1), Hw. apply rev_involutive.
  Qed.

Lemma str_app_inv_head (p a b : string) : p ++ a = p ++ b -> a = b.
  Proof.
    induction p as [|c p IH]; cbn [append]; intros H; [exact H|].
    injection H. exact IH.
  Qed.

Lemma str_app_inv_tail (a b p : string) : a ++ p = b ++ p -> a = b.
  Proof.
    intros H. apply (f_equal String.rev) in H. rewrite !rev_app in H.
    apply str_app_inv_head in H.
    rewrite <- (rev_involutive a), H. apply rev_involutive.
  Qed.

Lemma all_space_no_space_first (b : string) :
    all_space b = true -> no_space_first b -> b = "".
  Proof.
    destruct b as [|c b]; [reflexivity|]. cbn [all_space no_space_first].
    intros H N. apply andb_true_iff in H as [H _]. congruence.
  Qed.

Lemma stripped_unique (text b1 b2 : string) :
    stripped text b1 -> stripped text b2 -> b1 = b2.
  Proof.
    intros (w1 & v1 & H1 & Hw1 & Hv1 & Nf1 & Nl1)
           (w2 & v2 & H2 & Hw2 & Hv2 & Nf2 & Nl2).
    assert (Hblank : forall b w v b' w' v',
               text = w ++ b ++ v -> text = w' ++ b' ++ v' ->
               all_space w' = true -> all_space v' = true ->
               no_space_first b -> b' = "" -> b = "").
    { intros b w v b' w' v' Hb Hb' Hw' Hv' Nb ->.
      assert (Ht : all_space text = true).
      { rewrite Hb'. cbn [append]. now rewrite all_space_app, Hw', Hv'. }
      rewrite Hb, !all_space_app, !andb_true_iff in Ht.
      destruct Ht as (_ & Ht & _). now apply all_space_no_space_first. }
    destruct b1 as [|c1 b1].
    { symmetry. now apply (Hblank b2 w2 v2 "" w1 v1). }
    destruct b2 as [|c2 b2].
    { now apply (Hblank (String c1 b1) w1 v1 "" w2 v2). }
    rewrite H1 in H2.
    destruct (blank_prefix_unique _ _ _ _ H2 Hw1 Hw2) as [_ Hb];
      [exact Nf1 | exact Nf2 |].
    now destruct (blank_suffix_unique _ _ _ _ Hb Hv1 Hv2 Nl1 Nl2).
  Qed.

Lemma opening_removed_unique (b r1 r2 : string) :
    opening_removed b r1 -> opening_removed b r2 -> r1 = r2.
  Proof.
    intros (t1 & w1 & H1 & T1 & W1 & N1) (t2 & w2 & H2 & T2 & W2 & N2).
    rewrite H1 in H2. apply str_app_inv_head in H2.
    destruct T1 as [->|[-> Hn1]], T2 as [->|[-> Hn2]].
    - apply str_app_inv_head in H2.
      now destruct (blank_prefix_unique _ _ _ _ H2 W1 W2 N1 N2).
    - exfalso. apply Hn2. exists (w1 ++ r1). exact (eq_sym H2).
    - exfalso. apply Hn1. exists (w2 ++ r2). exact H2.
    - cbn [append] in H2.
      now destruct (blank_prefix_unique _ _ _ _ H2 W1 W2 N1 N2).
  Qed.

Lemma closing_removed_unique (r c1 c2 : string) :
    closing_removed r c1 -> closing_removed r c2 -> c1 = c2.
  Proof.
    intros [(w1 & H1 & W1 & N1)|[E1 ->]] [(w2 & H2 & W2 & N2)|[E2 ->]].
    - rewrite H1, <- !str_app_assoc in H2. apply str_app_inv_tail in H2.
      now destruct (blank_suffix_unique _ _ _ _ H2 W1 W2 N1 N2).
    - exfalso. apply E2. exists (c1 ++ w1). now rewrite str_app_assoc.
    - exfalso. apply E1. exists (c2 ++ w2). now rewrite str_app_assoc.
    - reflexivity.
  Qed.

Lemma cleaned_unique (text c1 c2 : string) :
    cleaned text c1 -> cleaned text c2 -> c1 = c2.
  Proof.
    intros (b1 & S1 & C1) (b2 & S2 & C2).
    rewrite (stripped_unique text b2 b1 S2 S1) in C2.
    destruct C1 as [[F1 ->]|(r1 & O1 & L1)], C2 as [[F2 ->]|(r2 & O2 & L2)].
    - reflexivity.
    - exfalso. apply F1. destruct O2 as (t & w & -> & _). now eexists.
    - exfalso. apply F2. destruct O1 as (t & w & -> & _). now eexists.
    - rewrite (opening_removed_unique b1 r2 r1 O2 O1) in L2.
      exact (closing_removed_unique r1 c1 c2 L1 L2).
  Qed.

(** So is the span between the outermost braces. *)
Lemma outermost_braces_unique (pre1 m1 post1 pre2 m2 post2 : string) :
    pre1 ++ m1 ++ post1 = pre2 ++ m2 ++ post2 ->
    outermost_braces pre1 m1 post1 -> outermost_braces pre2 m2 post2 -> m1 = m2.
  Proof.
    intros H O1 O2.
    pose proof (re_search_braces_complete _ _ _ O1) as E1.
    pose proof (re_search_braces_complete _ _ _ O2) as E2.
    rewrite H, E2 in E1. now injection E1.
  Qed.
End ParserFacts.

(** ** The response normalizer *)

Section NormalizerFacts.
Import LlmService NormalizerSpec.
Local Open Scope string_scope.
Variable float_of_str : string -> option Q.

Lemma risk_map_lookup (key : string) :
    default MEDIUM (risk_map !! key) =
      if String.eqb key "low" then LOW
      else if String.eqb key "medium" then MEDIUM
      else if String.eqb key "high" then HIGH
      else MEDIUM.
  Proof.
    unfold risk_map.
    destruct (String.eqb_spec key "low") as [->|Hl]; [reflexivity|].
    rewrite lookup_insert_ne by congruence.
    destruct (String.eqb_spec key "medium") as [->|Hm]; [reflexivity|].
    rewrite lookup_insert_ne by congruence.
    destruct (String.eqb_spec key "high") as [->|Hh]; [reflexivity|].
    rewrite lookup_insert_ne by congruence.
    now rewrite lookup_empty.
  Qed.

(** [lower] turns into a small letter that letter and its capital, and
    nothing else. *)
Lemma lower_char_small (c w : ascii) :
    In w (list_ascii_of_string "lowmediuhg") ->
    Ascii.eqb (lower_char c) w = Ascii.eqb c w || Ascii.eqb c (capital w).
  Proof.
    intros H. cbn [list_ascii_of_string In] in H.
    repeat (destruct H as [<-|H];
            [destruct c as [[] [] [] [] [] [] [] []]; reflexivity|]).
    destruct H.
  Qed.

Lemma lower_caseless (word s : string) :
    (forall w, In w (list_ascii_of_string word) ->
               In w (list_ascii_of_string "lowmediuhg")) ->
    String.eqb (lower s) word = caseless word s.
  Proof.
    revert s. induction word as [|w word IH]; intros s Hw.
    - destruct s; reflexivity.
    - destruct s as [|c s]; [reflexivity|].
      cbn [lower String.eqb caseless].
      rewrite (lower_char_small c w) by (apply Hw; now left).
      rewrite IH by (intros x Hx; apply Hw; now right).
      destruct (Ascii.eqb c w || Ascii.eqb c (capital w)); reflexivity.
  Qed.

Lemma risk_map_match_level (s : string) :
    default MEDIUM (risk_map !! lower s) = match_level s.
  Proof.
    rewrite risk_map_lookup. unfold match_level.
    rewrite !lower_caseless; [reflexivity| | |];
      intros w Hw; cbn [list_ascii_of_string In] in *; tauto.
  Qed.

Lemma risk_step (d : gmap string pyval) (key : string) :
    py_lower (dict_get d "overall_risk_level" (PStr "Medium")) = Ok key ->
    risk_ok d = true /\ default MEDIUM (risk_map !! key) = parsed_level d.
  Proof.
    unfold dict_get, risk_ok, parsed_level.
    destruct (d !! "overall_risk_level") as [[]|]; cbn [default py_lower];
      try discriminate.
    - intros [= <-]. split; [reflexivity|]. apply risk_map_match_level.
    - intros [= <-]. split; reflexivity.
  Qed.

Lemma risk_step_ok (d : gmap string pyval) :
    risk_ok d = true ->
    exists key, py_lower (dict_get d "overall_risk_level" (PStr "Medium")) = Ok key.
  Proof.
    unfold dict_get, risk_ok.
    destruct (d !! "overall_risk_level") as [[]|]; simpl; try discriminate; eauto.
  Qed.

(** The ints that [float()] accepts are those strictly between the two
    bounds of the specification. *)
Lemma fits_double_iff (z : Z) :
    (Z.abs z <? DBL_MAX + half_ulp_of_DBL_MAX)%Z =
    ((- (2 ^ 1024 - 2 ^ 970) <? z) && (z <? 2 ^ 1024 - 2 ^ 970))%Z.
  Proof.
    assert (Hb : (DBL_MAX + half_ulp_of_DBL_MAX = 2 ^ 1024 - 2 ^ 970)%Z)
      by (vm_compute; reflexivity).
    rewrite Hb. generalize (2 ^ 1024 - 2 ^ 970)%Z. intros b.
    destruct (Z.abs z <? b)%Z eqn:E1, (- b <? z)%Z eqn:E2, (z <? b)%Z eqn:E3;
      try reflexivity; exfalso;
      rewrite ?Z.ltb_lt, ?Z.ltb_ge in *; lia.
  Qed.

(** [float()] returns exactly on the coercible values, the number they
    stand for. *)
Lemma py_float_coercible (v : pyval) :
    match py_float float_of_str v with
    | Ok f => coercible float_of_str v = true /\ f = number_of float_of_str v
    | Raise _ => coercible float_of_str v = false
    end.
  Proof.
    destruct v as [|b|z|f|s|l|d]; cbn [py_float coercible number_of]; auto.
    - rewrite <- fits_double_iff.
      destruct (Z.abs z <? DBL_MAX + half_ulp_of_DBL_MAX)%Z; auto.
    - destruct (float_of_str s); auto.
  Qed.

Lemma conf_step (d : gmap string pyval) :
    match py_float float_of_str (dict_get d "confidence_score" (PFloat 0.7)) with
    | Ok f => conf_ok float_of_str d = true /\ f = parsed_confidence float_of_str d
    | Raise _ => conf_ok float_of_str d = false
    end.
  Proof.
    unfold dict_get, conf_ok, parsed_confidence.
    destruct (d !! "confidence_score") as [v|]; simpl.
    - apply py_float_coercible.
    - auto.
  Qed.

Lemma all_str_length (l : list pyval) (r : list string) :
    InsightResponse.all_str l = Some r -> length r = length l.
  Proof.
    revert r. induction l as [|v l IH]; simpl; intros r H.
    - now injection H as <-.
    - destruct v; try discriminate.
      destruct (InsightResponse.all_str l) as [r'|]; [|discriminate].
      injection H as <-. simpl. now rewrite (IH r' eq_refl).
  Qed.

Lemma all_str_fmap_inv (l : list pyval) (r : list string) :
    InsightResponse.all_str l = Some r -> PStr <$> r = l.
  Proof.
    revert r. induction l as [|v l IH]; simpl; intros r H.
    - now injection H as <-.
    - destruct v; try discriminate.
      destruct (InsightResponse.all_str l) as [r'|]; [|discriminate].
      injection H as <-. rewrite fmap_cons. now rewrite (IH r' eq_refl).
  Qed.

(** Slicing a list field and validating the slice succeeds exactly on a
    well-shaped field, and yields its strings. *)
(** The validation of a list of strings and the test of the
    specification agree. *)
Lemma all_str_is_str (l : list pyval) :
    match InsightResponse.all_str l with
    | Some _ => forallb is_str l = true
    | None => forallb is_str l = false
    end.
  Proof.
    induction l as [|v l IH]; [reflexivity|].
    destruct v; try reflexivity. cbn [InsightResponse.all_str forallb is_str].
    destruct (InsightResponse.all_str l); exact IH.
  Qed.

Lemma list_step (d : gmap string pyval) (key ph : string) :
    match py_slice_to 10 (dict_get d key (PList [PStr ph])) with
    | Ok v =>
        match InsightResponse.validate_str_list v with
        | Ok r => list_ok d key = true /\ r = list_field d key ph
        | Raise _ => list_ok d key = false
        end
    | Raise _ => list_ok d key = false
    end.
  Proof.
    unfold dict_get, list_ok, list_field.
    destruct (d !! key) as [v|]; [|simpl; auto].
    destruct v; simpl; auto.
    pose proof (all_str_is_str (take 10 l)) as Hf.
    destruct (InsightResponse.all_str (take 10 l)) as [r|] eqn:E;
      [|now rewrite Hf, andb_false_r].
    pose proof (all_str_length _ _ E) as Hlen. rewrite length_take in Hlen.
    rewrite Hf, andb_true_r.
    destruct r as [|x r]; simpl.
    - cbn [length] in Hlen.
      assert (Hl : length l = 0%nat) by lia. now rewrite Hl.
    - cbn [length] in Hlen.
      assert (Hl : (length l =? 0)%nat = false) by (apply Nat.eqb_neq; lia).
      rewrite Hl.
      destruct (length r <=? 9)%nat eqn:E9; [auto|].
      apply Nat.leb_gt in E9. lia.
  Qed.

Lemma normalized_confidence_bounds (f : Q) :
    Qleb 0 (py_round (py_max 0 (py_min 1 f)) 2) &&
    Qleb (py_round (py_max 0 (py_min 1 f)) 2) 1 = true.
  Proof.
    destruct (py_round2_bounds _ (clamp_bounds f)) as [H0 H1].
    apply andb_true_iff. split; now apply Qleb_le.
  Qed.

(** The normalizer returns exactly on the well-shaped objects, and then
    returns the normalized result. *)
Lemma validate_response_spec (d : gmap string pyval) (req : InsightRequest.t)
      (r : InsightResponse.t) :
    validate_response float_of_str (PDict d) req = Ok r <->
    well_shaped float_of_str d = true /\ r = normalized float_of_str d req.
  Proof.
    unfold validate_response, well_shaped, normalized, InsightResponse.init.
    cbn [py_get bind].
    pose proof (risk_step d) as Hr. pose proof (risk_step_ok d) as Hr'.
    pose proof (conf_step d) as Hc.
    pose proof (list_step d "key_risks" "No risks identified") as Hk.
    pose proof (list_step d "negotiation_levers" "Review contracts") as Hn.
    pose proof (list_step d "recommended_actions_next_90_days" "Conduct review") as Ha.
    destruct (py_lower (dict_get d "overall_risk_level" (PStr "Medium")))
      as [key|e] eqn:Ek; cbn [bind].
    2:{ split; [discriminate|]. intros [Hw _].
        rewrite !andb_true_iff in Hw. destruct Hw as [[[[Hw _] _] _] _].
        destruct (Hr' Hw) as [k Hk']. discriminate. }
    destruct (Hr key eq_refl) as [Hro Hlv]. rewrite Hro, Hlv. clear Hr Hr'.
    destruct (py_float float_of_str (dict_get d "confidence_score" (PFloat 0.7)))
      as [f|e]; cbn [bind].
    2:{ rewrite Hc. split; [discriminate|]. simpl. intros [? _]. discriminate. }
    destruct Hc as [Hc ->]. rewrite Hc.
    destruct (py_slice_to 10 (dict_get d "key_risks" (PList [PStr "No risks identified"])))
      as [kr|e]; cbn [bind].
    2:{ rewrite Hk. split; [discriminate|]. simpl. intros [? _]. discriminate. }
    destruct (py_slice_to 10 (dict_get d "negotiation_levers" (PList [PStr "Review contracts"])))
      as [nl|e]; cbn [bind].
    2:{ rewrite Hn. split; [discriminate|]. rewrite andb_false_r. simpl.
        intros [? _]. discriminate. }
    destruct (py_slice_to 10 (dict_get d "recommended_actions_next_90_days"
                                (PList [PStr "Conduct review"])))
      as [ra|e]; cbn [bind].
    2:{ rewrite Ha. split; [discriminate|]. rewrite andb_false_r.
        intros [? _]. discriminate. }
    destruct (InsightResponse.validate_str_list kr) as [kr'|e]; cbn [bind].
    2:{ rewrite Hk. split; [discriminate|]. simpl. intros [? _]. discriminate. }
    destruct Hk as [Hk ->]. rewrite Hk.
    destruct (InsightResponse.validate_str_list nl) as [nl'|e]; cbn [bind].
    2:{ rewrite Hn. split; [discriminate|]. simpl. intros [? _]. discriminate. }
    destruct Hn as [Hn ->]. rewrite Hn.
    destruct (InsightResponse.validate_str_list ra) as [ra'|e]; cbn [bind].
    2:{ rewrite Ha. split; [discriminate|]. simpl. intros [? _]. discriminate. }
    destruct Ha as [Ha ->]. rewrite Ha.
    rewrite normalized_confidence_bounds. simpl.
    split.
    - intros [= <-]. split; reflexivity.
    - intros [_ ->]. reflexivity.
  Qed.

(** Only a dict can be normalized. *)
Lemma validate_response_dict (data : pyval) (req : InsightRequest.t)
      (r : InsightResponse.t) :
    validate_response float_of_str data req = Ok r -> exists d, data = PDict d.
  Proof.
    destruct data; try (unfold validate_response; simpl; discriminate). eauto.
  Qed.

(** The lists of a normalized result of a well-shaped object. *)
Lemma list_field_shape (d : gmap string pyval) (key ph : string) :
    list_ok d key = true ->
    parsed_list d key ph (list_field d key ph) /\
    (1 <= length (list_field d key ph) <= 10)%nat.
  Proof.
    unfold list_ok, parsed_list, list_field.
    destruct (d !! key) as [v|]; [|intros _; simpl; split; [reflexivity|lia]].
    destruct v; try discriminate.
    intros H. apply andb_true_iff in H as [Hne Hf].
    apply negb_true_iff, Nat.eqb_neq in Hne.
    pose proof (all_str_is_str (take 10 l)) as Hs.
    destruct (InsightResponse.all_str (take 10 l)) as [r|] eqn:E; [|congruence].
    destruct r as [|x r].
    { apply all_str_length in E. rewrite length_take in E. cbn [length] in E. lia. }
    change (default [] (Some (x :: r))) with (x :: r). split.
    - exists l. split; [reflexivity|]. now apply all_str_fmap_inv.
    - pose proof (all_str_length _ _ E) as Hlen. rewrite length_take in Hlen.
      cbn [length] in Hlen |- *. lia.
  Qed.
End NormalizerFacts.



Lemma clamp_spec (f : Q) : (py_max 0 (py_min 1 f) == Qmax 0 (Qmin 1 f))%Q.
Proof.
  pose proof (py_max_spec 0 (py_min 1 f)) as H1.
  pose proof (py_min_spec 1 f) as H2.
  destruct (Q.max_spec 0 (py_min 1 f)) as [[Ha Ea]|[Ha Ea]];
    destruct (Q.max_spec 0 (Qmin 1 f)) as [[Hb Eb]|[Hb Eb]]; lra.
Qed.

(** ** Properties of the external path and of the handler *)

Section ExternalProperties.
Import LlmService ParserSpec NormalizerSpec.
Local Open Scope string_scope.
Variable json_loads : string -> result pyval.
Variable float_of_str : string -> option Q.
Variable call_api : GroqService -> InsightRequest.t -> result string.

(** C8, as amended: every text has one cleaned text, which is the text
    without the whitespace around it and, only when it then opens with a
    fence, without that fence and without the fence it may end with; the
    parser hands it to the decoder.  What the parser returns is a whole
    decoded value, never part of one: the decoding of the cleaned text,
    or, when the decoder rejects that with a JSONDecodeError, the decoding
    of the span between its first opening and its last closing brace.  It
    raises ValueError when the cleaned text is rejected and has no such
    span, and lets through what the decoder raises on the span, and any
    other exception the decoder raises on the cleaned text; so whatever
    the parser raises is a ValueError or an exception of the decoder. *)
Theorem parse_response_all_or_nothing (text : string) :
  (exists c, cleaned text c) /\
  (forall c, cleaned text c ->
     match json_loads c with
     | Ok v => parse_response json_loads text = Ok v
     | Raise JSONDecodeError =>
         ((exists pre m post, c = pre ++ m ++ post /\ outermost_braces pre m post) \/
          (forall pre m post, c = pre ++ m ++ post -> ~ outermost_braces pre m post)) /\
         (forall pre m post, c = pre ++ m ++ post -> outermost_braces pre m post ->
            parse_response json_loads text = json_loads m) /\
         ((forall pre m post, c = pre ++ m ++ post -> ~ outermost_braces pre m post) ->
            parse_response json_loads text = Raise ValueError)
     | Raise e => parse_response json_loads text = Raise e
     end) /\
  (forall e, parse_response json_loads text = Raise e ->
     e = ValueError \/ exists t, json_loads t = Raise e).
Proof.
  pose proof (parse_response_cleans text) as Hc.
  unfold parse_response.
  set (c0 := if startswith fence (strip text)
             then re_sub_fence_close (re_sub_fence_open (strip text))
             else strip text) in *.
  split; [now exists c0|]. split.
  - intros c Hc'. rewrite (cleaned_unique text c c0 Hc' Hc). clear c Hc'.
    destruct (json_loads c0) as [v|e] eqn:E1; [reflexivity|].
    destruct e; try reflexivity.
    destruct (re_search_braces c0) as [m|] eqn:E2.
    + destruct (re_search_braces_sound c0 m E2) as (pre & post & Hm & Ho).
      split; [left; exists pre, m, post; auto|]. split.
      * intros pre' m' post' Hm' Ho'.
        assert (m' = m) as ->; [|reflexivity].
        apply (outermost_braces_unique pre' m' post' pre m post); auto.
        now rewrite <- Hm', <- Hm.
      * intros Hno. exfalso. exact (Hno pre m post Hm Ho).
    + pose proof (re_search_braces_none c0 E2) as Hno.
      split; [now right|]. split; [|reflexivity].
      intros pre m post Hm Ho. exfalso. exact (Hno pre m post Hm Ho).
  - intros e.
    destruct (json_loads c0) as [v|e1] eqn:E1; [discriminate|].
    destruct e1;
      try (intros [= <-]; right; exists c0; exact E1).
    destruct (re_search_braces c0) as [m|] eqn:E2.
    + intros Hm. right. now exists m.
    + intros [= <-]. now left.
Qed.

(** The external path fails exactly when one of its three stages fails. *)
Lemma generate_insights_raises (svc : GroqService) (req : InsightRequest.t) (e : exn) :
  LlmService.generate_insights json_loads float_of_str call_api svc req = Raise e <->
  (call_api svc req = Raise e \/
   (exists raw, call_api svc req = Ok raw /\
      parse_response json_loads raw = Raise e) \/
   (exists raw data, call_api svc req = Ok raw /\
      parse_response json_loads raw = Ok data /\
      validate_response float_of_str data req = Raise e)).
Proof.
  unfold LlmService.generate_insights.
  destruct (call_api svc req) as [raw|e1] eqn:E1; cbn [bind].
  2:{ split; [intros [= ->]; now left|].
      intros [H|[(x & Hx & H)|(x & y & Hx & Hy & H)]]; congruence. }
  destruct (parse_response json_loads raw) as [data|e2] eqn:E2; cbn [bind].
  2:{ split; [intros [= ->]; right; left; exists raw; split; [reflexivity|exact E2]|].
      intros [H|[(x & Hx & H)|(x & y & Hx & Hy & H)]]; congruence. }
  destruct (validate_response float_of_str data req) as [resp|e3] eqn:E3; cbn [bind].
  - split; [discriminate|].
    intros [H|[(x & Hx & H)|(x & y & Hx & Hy & H)]]; congruence.
  - split.
    + intros [= ->]. right; right. exists raw, data.
      split; [reflexivity|]. split; [exact E2 | exact E3].
    + intros [H|[(x & Hx & H)|(x & y & Hx & Hy & H)]]; congruence.
Qed.

(** C2: on a valid request, when the exchange, the parser or the normalizer
    raises, the handler returns (it does not raise) exactly the result of
    the fallback engine on that request, which is also what it returns
    when no client is configured. *)
Theorem external_failure_falls_back (svc : GroqService) (req : InsightRequest.t)
    (e : exn) :
  InsightRequest.valid req ->
  (call_api svc req = Raise e \/
   (exists raw, call_api svc req = Ok raw /\
      parse_response json_loads raw = Raise e) \/
   (exists raw data, call_api svc req = Ok raw /\
      parse_response json_loads raw = Ok data /\
      validate_response float_of_str data req = Raise e)) ->
  exists r, FallbackInsightGenerator.generate req = Ok r /\
    Main.generate_insights json_loads float_of_str call_api (Some svc) req = Ok r /\
    Main.generate_insights json_loads float_of_str call_api None req = Ok r.
Proof.
  intros Hv Hfail. apply generate_insights_raises in Hfail.
  eexists. split; [apply (generate_valid req Hv)|].
  unfold Main.generate_insights. rewrite Hfail, (generate_valid req Hv).
  split; reflexivity.
Qed.

End ExternalProperties.

Lemma parse_response_all_or_nothing_witness :
  LlmService.parse_response Examples.json_overflows "{}" = Raise RecursionError.
Proof.
  destruct (parse_response_all_or_nothing Examples.json_overflows "{}")
    as (_ & H & _).
  exact (H "{}"%string (parse_response_cleans "{}")).
Defined.

(** A reply that ends with a fence and does not open with one keeps that
    fence.  Where stripping it, as worded, leaves a text that decodes to
    a list, the parser raises ValueError, or returns an object that is
    only a part of that list.  And a reply nested too deep for the decoder
    makes the parser fail with the RecursionError of the decoder, which
    is not a ValueError. *)
Lemma parse_response_keeps_trailing_fence :
  LlmService.parse_response Examples.json_sample (Examples.fence_after "[1, 2]")
    = Raise ValueError /\
  ParserSpec.claimed_parse Examples.json_sample (Examples.fence_after "[1, 2]")
    = Ok (PList [PInt 1; PInt 2]) /\
  LlmService.parse_response Examples.json_sample (Examples.fence_after "[{}]")
    = Ok (PDict ∅) /\
  ParserSpec.claimed_parse Examples.json_sample (Examples.fence_after "[{}]")
    = Ok (PList [PDict ∅]) /\
  LlmService.parse_response Examples.json_sample (Examples.nested (50 * 100))
    = Raise RecursionError.
Proof. repeat split; vm_compute; reflexivity. Qed.

Lemma external_failure_falls_back_witness :
  exists r, LlmService.FallbackInsightGenerator.generate Examples.scenario_a = Ok r /\
    Main.generate_insights Examples.no_json Examples.no_float
      (Examples.api_says "Sorry, no analysis today.") (Some Examples.groq)
      Examples.scenario_a = Ok r /\
    Main.generate_insights Examples.no_json Examples.no_float
      (Examples.api_says "Sorry, no analysis today.") None
      Examples.scenario_a = Ok r.
Proof.
  apply (external_failure_falls_back Examples.no_json Examples.no_float
           (Examples.api_says "Sorry, no analysis today.") Examples.groq
           Examples.scenario_a ValueError).
  - solve_valid.
  - right; left. exists "Sorry, no analysis today."%string.
    split; [reflexivity | vm_compute; reflexivity].
Defined.


(** ** Properties of the response normalizer *)

Section NormalizerProperties.
Import LlmService NormalizerSpec.
Local Open Scope string_scope.
Variable float_of_str : string -> option Q.

(** C3, as amended: the normalizer returns exactly on the parsed
    dictionaries whose fields are each absent or well-shaped (the risk
    level a string, the confidence coercible to a number, each list field a
    non-empty list whose first ten entries are strings) and raises on every
    other parsed value; a result it returns conforms to the output
    contract, its three lists have 1 to 10 entries, and the placeholder
    stands in for a list field only when the field is absent. *)
Theorem normalizer_returns_iff_well_shaped (d : gmap string pyval)
    (req : InsightRequest.t) :
  ((exists r, validate_response float_of_str (PDict d) req = Ok r) <->
   well_shaped float_of_str d = true) /\
  (well_shaped float_of_str d = false ->
   exists e, validate_response float_of_str (PDict d) req = Raise e) /\
  (forall r, validate_response float_of_str (PDict d) req = Ok r ->
     InsightResponse.conforming r /\
     parsed_list d "key_risks" "No risks identified"
       (InsightResponse.key_risks r) /\
     parsed_list d "negotiation_levers" "Review contracts"
       (InsightResponse.negotiation_levers r) /\
     parsed_list d "recommended_actions_next_90_days" "Conduct review"
       (InsightResponse.recommended_actions_next_90_days r)) /\
  (forall v, (forall d', v <> PDict d') ->
     validate_response float_of_str v req = Raise AttributeError).
Proof.
  split; [|split; [|split]].
  - split.
    + intros [r Hr]. now apply validate_response_spec in Hr.
    + intros Hw. exists (normalized float_of_str d req).
      now apply validate_response_spec.
  - intros Hw.
    destruct (validate_response float_of_str (PDict d) req) as [r|e] eqn:E; [|eauto].
    apply validate_response_spec in E as [Hw' _]. congruence.
  - intros r Hr. apply validate_response_spec in Hr as [Hw ->].
    unfold well_shaped in Hw. rewrite !andb_true_iff in Hw.
    destruct Hw as [[[[_ _] Hk] Hn] Ha].
    destruct (list_field_shape d "key_risks" "No risks identified" Hk) as [Pk Lk].
    destruct (list_field_shape d "negotiation_levers" "Review contracts" Hn) as [Pn Ln].
    destruct (list_field_shape d "recommended_actions_next_90_days" "Conduct review" Ha)
      as [Pa La].
    unfold InsightResponse.conforming, normalized.
    cbn [InsightResponse.key_risks InsightResponse.negotiation_levers
         InsightResponse.recommended_actions_next_90_days
         InsightResponse.confidence_score].
    pose proof (py_round2_bounds _ (clamp_bounds (parsed_confidence float_of_str d))).
    tauto.
  - intros v Hv. destruct v; try reflexivity. now destruct (Hv d0).
Qed.

End NormalizerProperties.


(** A present but empty list field and a risk level that is not a string
    both make the normalizer raise: it does not substitute a placeholder
    for them. *)
Lemma normalizer_raises_on_malformed_fields :
  LlmService.validate_response Examples.no_float (PDict Examples.empty_risks)
    Examples.scenario_a = Raise ValidationError /\
  LlmService.validate_response Examples.no_float (PDict Examples.numeric_level)
    Examples.scenario_a = Raise AttributeError.
Proof. split; vm_compute; reflexivity. Qed.

(** An int too large for a float is not coercible: [float()] raises
    OverflowError on it. *)
Lemma normalizer_refuses_huge_confidence :
  NormalizerSpec.well_shaped Examples.no_float Examples.huge_confidence = false /\
  LlmService.validate_response Examples.no_float
    (PDict Examples.huge_confidence) Examples.scenario_a = Raise OverflowError.
Proof. split; vm_compute; reflexivity. Qed.


(** ** Ingestion of the delivery rate *)

Section IngestionProperties.
Import Supplier IngestionSpec.
Variable float_of_str : string -> option Q.

Lemma Qleb_inject_Z (a b : Z) : Qleb (inject_Z a) (inject_Z b) = (a <=? b)%Z.
  Proof. unfold Qleb, Qle_bool. simpl. now rewrite !Z.mul_1_r. Qed.

(** The ints up to 100 are well within the doubles. *)
Lemma small_int_fits (k : Z) :
    (-100 <= k <= 100)%Z -> (Z.abs k <? DBL_MAX + half_ulp_of_DBL_MAX)%Z = true.
  Proof.
    assert (Hb : (100 < DBL_MAX + half_ulp_of_DBL_MAX)%Z) by (vm_compute; reflexivity).
    revert Hb. generalize (DBL_MAX + half_ulp_of_DBL_MAX)%Z. intros b Hb Hk.
    apply Z.ltb_lt. lia.
  Qed.

Lemma large_int_out_of_range (k : Z) :
    (Z.abs k <? DBL_MAX + half_ulp_of_DBL_MAX)%Z = false ->
    ((0 <=? k) && (k <=? 100))%Z = false.
  Proof.
    assert (Hb : (100 < DBL_MAX + half_ulp_of_DBL_MAX)%Z) by (vm_compute; reflexivity).
    revert Hb. generalize (DBL_MAX + half_ulp_of_DBL_MAX)%Z. intros b Hb Hk.
    apply Z.ltb_ge in Hk.
    destruct (0 <=? k)%Z eqn:E0; [|reflexivity].
    destruct (k <=? 100)%Z eqn:E1; [|reflexivity].
    apply Z.leb_le in E0. apply Z.leb_le in E1. lia.
  Qed.

(** A numeric input is stored as its normalized value when that lies in
    [0, 100], and is refused otherwise. *)
Lemma convert_numeric (v : pyval) (q : Q) :
    numeric_value v = Some q ->
    ingest_on_time_delivery_pct float_of_str v =
      (if Qleb 0 (normalize q) && Qleb (normalize q) 100
       then Ok (normalize q) else Raise ValidationError).
  Proof.
    unfold ingest_on_time_delivery_pct, normalize, coerce_float.
    destruct v as [|b|z|f|s|l|d]; cbn [numeric_value]; try discriminate;
      intros [= <-].
    - destruct b; reflexivity.
    - cbn [convert_decimal_to_percentage].
      change 0%Q with (inject_Z 0). change 1%Q with (inject_Z 1).
      change 100%Q with (inject_Z 100).
      rewrite (Qleb_inject_Z 0 z), (Qleb_inject_Z z 1).
      destruct ((0 <=? z)%Z && (z <=? 1)%Z) eqn:E; cbn [py_float].
      + apply andb_true_iff in E as [E0 E1].
        apply Z.leb_le in E0. apply Z.leb_le in E1.
        rewrite small_int_fits by lia. cbn [bind].
        change (inject_Z z * inject_Z 100)%Q with (inject_Z (z * 100)).
        reflexivity.
      + destruct (Z.abs z <? DBL_MAX + half_ulp_of_DBL_MAX)%Z eqn:Ef; cbn [bind];
          rewrite !Qleb_inject_Z.
        * reflexivity.
        * now rewrite (large_int_out_of_range z Ef).
    - cbn [convert_decimal_to_percentage].
      destruct (Qleb 0 f && Qleb f 1); reflexivity.
  Qed.

(** C4: for a numeric delivery input v, ingestion stores v * 100 when
    0 <= v <= 1 and v otherwise, provided that value lies in [0, 100] (an
    input it rejects stores nothing); a stored value above 1 is left as it
    is when the record is ingested again. *)
Theorem delivery_normalized_once (v : pyval) (q : Q) :
  numeric_value v = Some q ->
  ((0 <= q)%Q /\ (q <= 1)%Q -> normalize q = (q * 100)%Q) /\
  (~ ((0 <= q)%Q /\ (q <= 1)%Q) -> normalize q = q) /\
  ingest_on_time_delivery_pct float_of_str v =
    (if Qleb 0 (normalize q) && Qleb (normalize q) 100
     then Ok (normalize q) else Raise ValidationError) /\
  (forall w, ingest_on_time_delivery_pct float_of_str v = Ok w -> (1 < w)%Q ->
     ingest_on_time_delivery_pct float_of_str (PFloat w) = Ok w).
Proof.
  intros Hv. split; [|split; [|split]].
  - intros [H0 H1]. unfold normalize.
    apply Qleb_le in H0. apply Qleb_le in H1. now rewrite H0, H1.
  - intros Hn. unfold normalize.
    destruct (Qleb 0 q) eqn:E0; [|reflexivity].
    destruct (Qleb q 1) eqn:E1; [|reflexivity].
    apply Qleb_le in E0. apply Qleb_le in E1. tauto.
  - apply (convert_numeric v q Hv).
  - intros w Hw H1.
    rewrite (convert_numeric v q Hv) in Hw.
    destruct (Qleb 0 (normalize q) && Qleb (normalize q) 100) eqn:E; [|discriminate].
    injection Hw as <-.
    unfold ingest_on_time_delivery_pct.
    assert (Hc : convert_decimal_to_percentage (PFloat (normalize q))
                 = PFloat (normalize q)).
    { simpl. assert (Hf : Qleb (normalize q) 1 = false) by now apply Qleb_false.
      rewrite Hf, andb_false_r. reflexivity. }
    rewrite Hc. unfold coerce_float. simpl. now rewrite E.
Qed.
End IngestionProperties.

Lemma delivery_normalized_once_witness :
  Supplier.ingest_on_time_delivery_pct Examples.no_float (PInt 92) = Ok 92%Q /\
  Supplier.ingest_on_time_delivery_pct Examples.no_float (PFloat 92) = Ok 92%Q /\
  Supplier.ingest_on_time_delivery_pct Examples.no_float (PFloat 0.92)
    = Ok (0.92 * 100)%Q.
Proof.
  destruct (delivery_normalized_once Examples.no_float (PInt 92) 92 eq_refl)
    as (_ & _ & H92 & Hagain).
  destruct (delivery_normalized_once Examples.no_float (PFloat 0.92) 0.92 eq_refl)
    as (_ & _ & H092 & _).
  split; [exact H92|]. split; [|exact H092].
  apply Hagain; [exact H92 | reflexivity].
Defined.


(** ** Further properties of the fallback rule engine *)

Section FallbackMore.
Import Supplier LlmService FallbackSpec Aggregates.
Import FallbackInsightGenerator.




End FallbackMore.


Section FallbackShares.
Import Supplier LlmService FallbackSpec Aggregates.
Import FallbackInsightGenerator.




End FallbackShares.


Section FallbackOrder.
Import Supplier LlmService FallbackSpec Aggregates.
Import FallbackInsightGenerator.










End FallbackOrder.



(** ** Further properties of the rule engine over binary64 floats *)

Section DoublesMore.
Import LlmService Doubles Doubles.Supplier DoublesSpec.
Import Doubles.FallbackInsightGenerator.













End DoublesMore.

(** ** Further properties of the handler and of start-up *)

Section HandlerMore.
Import Supplier LlmService FallbackSpec NormalizerSpec.
Import FallbackInsightGenerator.
Variable json_loads : string -> result pyval.
Variable float_of_str : string -> option Q.
Variable call_api : GroqService -> InsightRequest.t -> result string.

(** The engine returns whenever the total spend is not zero. *)
Lemma generate_nonzero (req : InsightRequest.t) :
  ~ (InsightRequest.total_spend req == 0)%Q ->
  exists r, generate req = Ok r /\ InsightResponse.conforming r /\
    InsightResponse.category r = InsightRequest.category req.
Proof.
  intros Ht. unfold generate.
  rewrite (for_each_collects _ _ _ Ht).
  cbn [bind risks levers actions app]. unfold InsightResponse.init.
  set (total := InsightRequest.total_spend req).
  set (l := InsightRequest.suppliers req).
  pose proof (list_or_take_length 5 (flat_map (risks_of total) l)
                "No critical risks identified"%string ltac:(lia)) as Hk.
  pose proof (list_or_take_length 5 (flat_map (levers_of total) l)
                "Review contracts for opportunities"%string ltac:(lia)) as Hn.
  pose proof (list_or_take_length 5 (flat_map actions_of l)
                "Quarterly supplier review"%string ltac:(lia)) as Ha.
  unfold default_risks, default_levers, default_actions.
  rewrite !validate_str_list_fmap by lia.
  cbn [bind]. eexists. split; [reflexivity|].
  unfold InsightResponse.conforming.
  cbn [InsightResponse.key_risks InsightResponse.negotiation_levers
       InsightResponse.recommended_actions_next_90_days
       InsightResponse.confidence_score InsightResponse.category].
  repeat split; try lia; lra.
Qed.

(** What the external path returns conforms to the output contract and
    carries the category of the request. *)
Lemma external_result_conforming (svc : GroqService) (req : InsightRequest.t)
    (r : InsightResponse.t) :
  LlmService.generate_insights json_loads float_of_str call_api svc req = Ok r ->
  InsightResponse.conforming r /\
  InsightResponse.category r = InsightRequest.category req.
Proof.
  unfold LlmService.generate_insights. intros H.
  destruct (call_api svc req) as [raw|]; [|discriminate]. cbn [bind] in H.
  destruct (parse_response json_loads raw) as [data|]; [|discriminate].
  cbn [bind] in H.
  destruct (validate_response float_of_str data req) as [resp|] eqn:E3;
    [|discriminate].
  cbn [bind] in H. injection H as <-.
  destruct (validate_response_dict _ _ _ _ E3) as [d ->].
  apply validate_response_spec in E3 as [Hw ->].
  unfold well_shaped in Hw. rewrite !andb_true_iff in Hw.
  destruct Hw as [[[[_ _] Hk] Hn] Ha].
  destruct (list_field_shape d "key_risks" "No risks identified" Hk) as [_ Lk].
  destruct (list_field_shape d "negotiation_levers" "Review contracts" Hn) as [_ Ln].
  destruct (list_field_shape d "recommended_actions_next_90_days" "Conduct review" Ha)
    as [_ La].
  pose proof (py_round2_bounds _ (clamp_bounds (parsed_confidence float_of_str d)))
    as Hc.
  unfold InsightResponse.conforming, InsightResponse.set_confidence_score, normalized.
  cbn [InsightResponse.key_risks InsightResponse.negotiation_levers
       InsightResponse.recommended_actions_next_90_days
       InsightResponse.confidence_score InsightResponse.category].
  set (c := py_round (py_max 0 (py_min 1 (parsed_confidence float_of_str d))) 2) in *.
  pose proof (py_min_spec 0.95 (c + 0.2)) as Hm.
  destruct (Q.min_spec 0.95 (c + 0.2)) as [[? ?]|[? ?]];
    repeat split; try lia; lra.
Qed.

(** X6: Whatever the client, the decoder and the network do, the handler
    answers a valid request with a result that conforms to the output
    contract and carries the category of the request. *)
Theorem handler_always_answers (llm_service : option GroqService)
    (req : InsightRequest.t) :
  InsightRequest.valid req ->
  exists r,
    Main.generate_insights json_loads float_of_str call_api llm_service req = Ok r /\
    InsightResponse.conforming r /\
    InsightResponse.category r = InsightRequest.category req.
Proof.
  intros Hv.
  assert (Hnz : ~ (InsightRequest.total_spend req == 0)%Q).
  { pose proof (total_spend_pos req Hv). lra. }
  destruct (generate_nonzero req Hnz) as (rf & Hrf & Hcf & Hcat).
  unfold Main.generate_insights. rewrite Hrf.
  destruct llm_service as [svc|]; [|exists rf; auto].
  destruct (LlmService.generate_insights json_loads float_of_str call_api svc req)
    as [r|e] eqn:E; [|exists rf; auto].
  exists r. split; [reflexivity|]. now apply external_result_conforming in E.
Qed.

End HandlerMore.

Lemma handler_always_answers_witness :
  exists r,
    Main.generate_insights Examples.no_json Examples.no_float
      (Examples.api_says "{}") (Some Examples.groq) MoreExamples.default_request
      = Ok r /\
    InsightResponse.conforming r.
Proof.
  destruct (handler_always_answers Examples.no_json Examples.no_float
              (Examples.api_says "{}") (Some Examples.groq)
              MoreExamples.default_request) as (r & Hr & Hc & _); [solve_valid|].
  exists r. split; [exact Hr | exact Hc].
Defined.

Section StartupFacts.
Import LlmService Startup.
Variable json_loads : string -> result pyval.
Variable float_of_str : string -> option Q.
Variable call_api : GroqService -> InsightRequest.t -> result string.

Lemma truthy_some (o : option string) :
  truthy o = true <-> exists k, o = Some k /\ k <> ""%string.
Proof.
  unfold truthy. destruct o as [k|].
  - rewrite negb_true_iff, String.eqb_neq. split; [eauto|].
    now intros (k' & [= <-] & H).
  - split; [discriminate|]. now intros (k & H & _).
Qed.

(** X8: Start-up selects the mode from the environment alone: a non-empty
    GROQ_API_KEY gives a client that holds that key, and its constructor,
    which prefers an explicit non-empty key and refuses an empty one, cannot
    fail there; without such a key there is no client, the health check
    says so, and every request is served by the rule engine whatever the
    decoder and the network would have answered. *)
Theorem startup_selects_the_mode (getenv : option string) :
  (forall api_key model temperature svc,
     init getenv api_key model temperature = Ok svc ->
     LlmService.api_key svc <> ""%string /\
     (truthy api_key = true -> api_key = Some (LlmService.api_key svc)) /\
     (truthy api_key = false -> getenv = Some (LlmService.api_key svc))) /\
  (forall api_key model temperature,
     truthy api_key = false -> truthy getenv = false ->
     init getenv api_key model temperature = Raise ValueError) /\
  (truthy getenv = true ->
     exists k, getenv = Some k /\
       lifespan getenv = Some (mk_GroqService k "llama-3.3-70b-versatile" 0.3)) /\
  (truthy getenv = false ->
     lifespan getenv = None /\
     llm_provider (health_check (lifespan getenv)) = "Fallback"%string /\
     forall req,
       Main.generate_insights json_loads float_of_str call_api (lifespan getenv) req
       = match FallbackInsightGenerator.generate req with
         | Ok r => Ok r
         | Raise _ => Raise (HTTPException 500)
         end).
Proof.
  split; [|split; [|split]].
  - intros api_key model temperature svc. unfold init, py_or.
    destruct (truthy api_key) eqn:Ea.
    + apply truthy_some in Ea as (k & -> & Hk).
      apply String.eqb_neq in Hk. rewrite Hk. intros [= <-]. cbn.
      apply String.eqb_neq in Hk. split; [exact Hk|]. split; [reflexivity|discriminate].
    + destruct getenv as [k|]; [|discriminate].
      destruct (String.eqb k "") eqn:Ek; [discriminate|].
      intros [= <-]. cbn. apply String.eqb_neq in Ek.
      split; [exact Ek|]. split; [discriminate|reflexivity].
  - intros api_key model temperature Ha He. unfold init, py_or. rewrite Ha.
    destruct getenv as [k|]; [|reflexivity].
    unfold truthy in He. apply negb_false_iff in He. now rewrite He.
  - intros He. unfold lifespan. rewrite He.
    apply truthy_some in He as (k & -> & Hk). exists k. split; [reflexivity|].
    unfold init, py_or.
    assert (Ht : truthy (Some k) = true) by (apply truthy_some; eauto).
    rewrite Ht. apply String.eqb_neq in Hk. now rewrite Hk.
  - intros He. unfold lifespan. rewrite He. repeat split.
    intros req. unfold Main.generate_insights.
    destruct (FallbackInsightGenerator.generate req); reflexivity.
Qed.
End StartupFacts.


(** ** Further properties of the normalizer and of the parser *)

Section NormalizerMore.
Import LlmService NormalizerSpec Aggregates ParserSpec.
Local Open Scope string_scope.
Variable json_loads : string -> result pyval.
Variable float_of_str : string -> option Q.
Variable call_api : GroqService -> InsightRequest.t -> result string.

(** X9: The normalizer reads five keys of the parsed object and the category
    of the request, nothing else: two objects that agree on those keys
    give the same outcome, result or exception; a category in the parsed
    object is one of the things it ignores. *)
Theorem normalizer_reads_five_keys (d1 d2 : gmap string pyval)
    (req1 req2 : InsightRequest.t) :
  (forall k, In k read_keys -> d1 !! k = d2 !! k) ->
  InsightRequest.category req1 = InsightRequest.category req2 ->
  validate_response float_of_str (PDict d1) req1 =
  validate_response float_of_str (PDict d2) req2.
Proof.
  intros Hk Hc. unfold validate_response. cbn [py_get]. unfold dict_get.
  rewrite (Hk "overall_risk_level"), (Hk "confidence_score"), (Hk "key_risks"),
    (Hk "negotiation_levers"), (Hk "recommended_actions_next_90_days"), Hc;
    first [reflexivity | unfold read_keys; simpl; tauto].
Qed.

Lemma py_round2_mono_int (x : Q) (k : Z) :
  (inject_Z k <= x * 100)%Q -> ((k # 100) <= py_round x 2)%Q.
Proof.
  intros H. unfold py_round. change (pow10 2) with 100%positive.
  apply round_half_even_mono_int in H. change (inject_Z 100) with 100%Q.
  unfold Qle. simpl. lia.
Qed.

Lemma py_round2_le_int (x : Q) (k : Z) :
  (x * 100 <= inject_Z k)%Q -> (py_round x 2 <= (k # 100))%Q.
Proof.
  intros H. unfold py_round. change (pow10 2) with 100%positive.
  apply round_half_even_le_int in H. change (inject_Z 100) with 100%Q.
  unfold Qle. simpl. lia.
Qed.

(** X10: On the external path the reported confidence saturates: a parsed
    confidence of 0.75 or more ends at the cap 0.95, and one of 0 or less
    ends at the bonus 0.2. *)
Theorem external_confidence_saturates (svc : GroqService) (req : InsightRequest.t)
    (raw : string) (d : gmap string pyval) :
  call_api svc req = Ok raw ->
  parse_response json_loads raw = Ok (PDict d) ->
  well_shaped float_of_str d = true ->
  exists r,
    LlmService.generate_insights json_loads float_of_str call_api svc req = Ok r /\
    ((3 # 4 <= parsed_confidence float_of_str d)%Q ->
       (InsightResponse.confidence_score r == 0.95)%Q) /\
    ((parsed_confidence float_of_str d <= 0)%Q ->
       (InsightResponse.confidence_score r == 0.2)%Q).
Proof.
  intros Ha Hp Hw. unfold LlmService.generate_insights.
  rewrite Ha. cbn [bind]. rewrite Hp. cbn [bind].
  rewrite (proj2 (validate_response_spec float_of_str d req _) (conj Hw eq_refl)).
  cbn [bind]. eexists. split; [reflexivity|].
  unfold normalized, InsightResponse.set_confidence_score.
  cbn [InsightResponse.confidence_score].
  set (f := parsed_confidence float_of_str d).
  pose proof (clamp_spec f) as Hcl.
  pose proof (clamp_bounds f) as Hcb.
  set (c := py_max 0 (py_min 1 f)) in *.
  pose proof (py_round2_bounds c Hcb) as Hrb.
  pose proof (py_min_spec 0.95 (py_round c 2 + 0.2)) as Hm.
  split.
  - intros Hf.
    assert (Hc : (3 # 4 <= c)%Q).
    { destruct (Q.max_spec 0 (Qmin 1 f)) as [[? ?]|[? ?]];
        destruct (Q.min_spec 1 f) as [[? ?]|[? ?]]; lra. }
    pose proof (py_round2_mono_int c 75 ltac:(change (inject_Z 75) with 75%Q; lra)).
    destruct (Q.min_spec 0.95 (py_round c 2 + 0.2)) as [[? ?]|[? ?]]; lra.
  - intros Hf.
    assert (Hc : (c <= 0)%Q).
    { destruct (Q.max_spec 0 (Qmin 1 f)) as [[? ?]|[? ?]];
        destruct (Q.min_spec 1 f) as [[? ?]|[? ?]]; lra. }
    pose proof (py_round2_le_int c 0 ltac:(change (inject_Z 0) with 0%Q; lra)).
    destruct (Q.min_spec 0.95 (py_round c 2 + 0.2)) as [[? ?]|[? ?]]; lra.
Qed.

Lemma lstrip_all_space (w : string) : all_space w = true -> lstrip w = "".
Proof.
  induction w as [|c w IH]; cbn [all_space lstrip]; [reflexivity|].
  intros H. apply andb_true_iff in H as [Hc Hw].
  rewrite is_space_whitespace, Hc. now apply IH.
Qed.

Lemma lstrip_app_spaces (t w : string) :
  all_space w = true ->
  (lstrip t = "" /\ lstrip (t ++ w) = "") \/ lstrip (t ++ w) = lstrip t ++ w.
Proof.
  intros Hw. induction t as [|c t IH].
  - left. split; [reflexivity|]. now apply lstrip_all_space.
  - change (String c t ++ w) with (String c (t ++ w)). cbn [lstrip].
    destruct (is_space c); [exact IH|]. now right.
Qed.

Lemma strip_spaces (ws1 text ws2 : string) :
  all_space ws1 = true -> all_space ws2 = true ->
  strip (ws1 ++ text ++ ws2) = strip text.
Proof.
  intros H1 H2. unfold strip. rewrite lstrip_spaces by exact H1.
  destruct (lstrip_app_spaces text ws2 H2) as [[Ha Hb]|Hb]; rewrite Hb.
  - now rewrite Ha.
  - now apply rstrip_spaces.
Qed.

(** X11: Whitespace around the reply never matters to the parser. *)
Theorem parse_response_ignores_outer_whitespace (ws1 text ws2 : string) :
  all_space ws1 = true -> all_space ws2 = true ->
  parse_response json_loads (ws1 ++ text ++ ws2) = parse_response json_loads text.
Proof.
  intros H1 H2. unfold parse_response. now rewrite strip_spaces.
Qed.
End NormalizerMore.

Lemma normalizer_reads_five_keys_witness :
  LlmService.validate_response Examples.no_float
    (PDict (<["category" := PStr "Something else"]> Examples.well_formed))
    Examples.scenario_a =
  LlmService.validate_response Examples.no_float (PDict Examples.well_formed)
    Examples.scenario_a.
Proof.
  apply normalizer_reads_five_keys; [|reflexivity].
  intros k Hk. apply lookup_insert_ne.
  unfold Aggregates.read_keys in Hk. simpl in Hk.
  intros <-. repeat (destruct Hk as [Hk|Hk]; [discriminate Hk|]). exact Hk.
Defined.

Lemma external_confidence_saturates_witness :
  exists r,
    LlmService.generate_insights (Examples.json_const (PDict Examples.well_formed))
      Examples.no_float (Examples.api_says "{}") Examples.groq
      Examples.scenario_a = Ok r /\
    (InsightResponse.confidence_score r == 0.95)%Q.
Proof.
  destruct (external_confidence_saturates
              (Examples.json_const (PDict Examples.well_formed))
              Examples.no_float (Examples.api_says "{}") Examples.groq
              Examples.scenario_a "{}" Examples.well_formed)
    as (r & Hr & H95 & _); try (vm_compute; reflexivity).
  exists r. split; [exact Hr|]. apply H95. vm_compute. discriminate.
Defined.


Lemma parse_response_ignores_outer_whitespace_witness :
  LlmService.parse_response Examples.no_json
    (String LlmService.LF " " ++ "{}" ++ String " " (String LlmService.LF ""))
  = LlmService.parse_response Examples.no_json "{}".
Proof.
  apply parse_response_ignores_outer_whitespace; reflexivity.
Defined.


(** ** Further properties of ingestion *)

Section IngestionMore.
Import Supplier IngestionSpec.
Variable float_of_str : string -> option Q.

(** X13: The rescaling of the delivery rate is for numbers only and is not
    idempotent below 1: a numeric string is stored as it reads, even when
    it reads as a fraction; a number of at most 0.01 is stored as at most
    1, and is rescaled once more when the stored value is ingested again;
    whatever is stored lies in [0, 100], and a number outside [0, 100], a
    null, a list or an object is refused. *)
Theorem delivery_rescaling_edges :
  (forall t q, float_of_str t = Some q -> (0 <= q)%Q -> (q <= 100)%Q ->
     ingest_on_time_delivery_pct float_of_str (PStr t) = Ok q) /\
  (forall v q, numeric_value v = Some q -> (0 <= q)%Q -> (q <= 1 # 100)%Q ->
     ingest_on_time_delivery_pct float_of_str v = Ok (q * 100)%Q /\
     ingest_on_time_delivery_pct float_of_str (PFloat (q * 100))
       = Ok (q * 100 * 100)%Q) /\
  (forall v w, ingest_on_time_delivery_pct float_of_str v = Ok w ->
     (0 <= w)%Q /\ (w <= 100)%Q) /\
  (forall v q, numeric_value v = Some q -> (q < 0)%Q \/ (100 < q)%Q ->
     ingest_on_time_delivery_pct float_of_str v = Raise ValidationError) /\
  (forall l d,
     ingest_on_time_delivery_pct float_of_str PNone = Raise ValidationError /\
     ingest_on_time_delivery_pct float_of_str (PList l) = Raise ValidationError /\
     ingest_on_time_delivery_pct float_of_str (PDict d) = Raise ValidationError).
Proof.
  split; [|split; [|split; [|split]]].
  - intros t q Ht H0 H1. unfold ingest_on_time_delivery_pct, coerce_float.
    simpl. rewrite Ht. cbn [bind].
    apply Qleb_le in H0. apply Qleb_le in H1. now rewrite H0, H1.
  - intros v q Hv H0 H1.
    assert (Hn : normalize q = (q * 100)%Q).
    { unfold normalize.
      assert (Ha : Qleb 0 q = true) by now apply Qleb_le.
      assert (Hb : Qleb q 1 = true) by (apply Qleb_le; lra).
      now rewrite Ha, Hb. }
    split.
    + rewrite (convert_numeric float_of_str v q Hv), Hn.
      assert (Ha : Qleb 0 (q * 100) = true) by (apply Qleb_le; lra).
      assert (Hb : Qleb (q * 100) 100 = true) by (apply Qleb_le; lra).
      now rewrite Ha, Hb.
    + unfold ingest_on_time_delivery_pct, coerce_float. simpl.
      assert (Ha : Qleb 0 (q * 100) = true) by (apply Qleb_le; lra).
      assert (Hb : Qleb (q * 100) 1 = true) by (apply Qleb_le; lra).
      rewrite Ha, Hb. simpl.
      assert (Hc : Qleb 0 (q * 100 * 100) = true) by (apply Qleb_le; lra).
      assert (Hd : Qleb (q * 100 * 100) 100 = true) by (apply Qleb_le; lra).
      now rewrite Hc, Hd.
  - intros v w. unfold ingest_on_time_delivery_pct.
    destruct (coerce_float float_of_str (convert_decimal_to_percentage v))
      as [x|]; cbn [bind]; [|discriminate].
    destruct (Qleb 0 x) eqn:E0; [|discriminate].
    destruct (Qleb x 100) eqn:E1; [|discriminate].
    simpl. intros [= <-]. split; now apply Qleb_le.
  - intros v q Hv Hout.
    rewrite (convert_numeric float_of_str v q Hv).
    assert (Hn : normalize q = q).
    { unfold normalize. destruct (Qleb 0 q) eqn:E0; [|reflexivity].
      destruct (Qleb q 1) eqn:E1; [|reflexivity].
      apply Qleb_le in E0. apply Qleb_le in E1. lra. }
    rewrite Hn. destruct Hout as [H|H].
    + assert (Ha : Qleb 0 q = false) by now apply Qleb_false. now rewrite Ha.
    + assert (Ha : Qleb q 100 = false) by now apply Qleb_false.
      rewrite Ha. now rewrite andb_false_r.
  - intros l d. repeat split.
Qed.
End IngestionMore.

Lemma delivery_rescaling_edges_witness :
  Supplier.ingest_on_time_delivery_pct MoreExamples.half_float (PStr "0.5")
    = Ok 0.5%Q /\
  Supplier.ingest_on_time_delivery_pct MoreExamples.half_float (PFloat 0.5)
    = Ok (0.5 * 100)%Q /\
  Supplier.ingest_on_time_delivery_pct MoreExamples.half_float (PFloat 0.005)
    = Ok (0.005 * 100)%Q /\
  Supplier.ingest_on_time_delivery_pct MoreExamples.half_float
    (PFloat (0.005 * 100)) = Ok (0.005 * 100 * 100)%Q.
Proof.
  destruct (delivery_rescaling_edges MoreExamples.half_float) as (Hs & Hn & _).
  split; [apply Hs; [reflexivity | discriminate | discriminate]|].
  split; [vm_compute; reflexivity|].
  apply (Hn (PFloat 0.005) 0.005%Q); [reflexivity | discriminate | discriminate].
Defined.
